(** * Air monitor: rolling history, derived readings and the HTTP handlers

    A shallow embedding of [Air_monitor.py] (and of its twin
    [air_monitor.py], whose Python code is the same apart from the dashboard
    page).  Python floats are IEEE binary64 values and are embedded as
    Rocq's primitive floats, so that derived fields can be evaluated on
    concrete sensor values.  The rolling window only subtracts the window
    length from a timestamp and compares timestamps with [>=]; it is
    embedded over an interface with exactly these two operations, with an
    instance for binary64 floats (what [time.time()] returns) and one for
    whole seconds. *)

From Stdlib Require Import ZArith List String Ascii Bool Lia Floats.
From Stdlib Require Import DecimalString DecimalZ.
Import ListNotations.

Set Warnings "-inexact-float".
Set Implicit Arguments.

Open Scope string_scope.
Open Scope list_scope.
Open Scope Z_scope.

(** ** Python floats *)

Module PyFloat.

(** Nearest integer to [n / d] for [0 < d], ties going to the even
    neighbour: the rounding of the shortest-repr algorithm behind
    [round(x, ndigits)]. *)
Definition round_half_even (n d : Z) : Z :=
  let q := n / d in
  match 2 * (n mod d) ?= d with
  | Lt => q
  | Eq => if Z.even q then q else q + 1
  | Gt => q + 1
  end.

(** The integer [q] such that [q / 10] is the exact value of [m * 2^e]
    correctly rounded to one decimal. *)
Definition tenths (m : positive) (e : Z) : Z :=
  match e with
  | Zneg p => round_half_even (10 * Zpos m) (2 ^ Zpos p)
  | _ => 10 * Zpos m * 2 ^ e
  end.

(** The binary64 value nearest to [q / 10], with sign [s]. *)
Definition of_tenths (s : bool) (q : Z) : float :=
  match q with
  | Zpos k =>
      SF2Prim (SFdiv prec emax (S754_finite s k 0) (S754_finite false 10 0))
  | _ => SF2Prim (S754_zero s)
  end.

(** [round(x, 1)] on a float: NaN and the infinities round to themselves;
    a finite value is rounded to one decimal on its exact value (ties to
    even) and the decimal is read back as the nearest float; the sign of
    a zero is kept. *)
Definition round1 (x : float) : float :=
  match Prim2SF x with
  | S754_finite s m e => of_tenths s (tenths m e)
  | _ => x
  end.

(** [y] is [x] rounded to one decimal: for a finite non-zero [x], of
    mantissa [m] and exponent [e], some integer [q] is within one half of
    [10 * m * 2^e] (the inequality is scaled by the power of two that
    clears the denominator) and [y] is the float nearest to [q / 10]; any
    other [x] is kept. *)
Definition one_decimal_of (x y : float) : Prop :=
  match Prim2SF x with
  | S754_finite s m e =>
      exists q : Z,
        y = of_tenths s q /\
        Z.abs (2 * (10 * Zpos m * 2 ^ Z.max e 0) - 2 * q * 2 ^ Z.max (- e) 0)
        <= 2 ^ Z.max (- e) 0
  | _ => y = x
  end.

(** [float(n)] for an integer the size of a window length. *)
Definition of_Z (n : Z) : float :=
  match n with
  | Z0 => 0%float
  | Zpos _ => PrimFloat.of_uint63 (Uint63.of_Z n)
  | Zneg _ => (- PrimFloat.of_uint63 (Uint63.of_Z (- n)))%float
  end.

End PyFloat.

(** ** Sensor reader *)

(** The category of a PM2.5 value, [None] standing for an absent value;
    [float(pm25_value)] is the identity on a float. *)
Definition aqi_category_from_pm25 (pm25_value : option float) : string :=
  match pm25_value with
  | None => "Unknown"
  | Some v =>
      if (v <=? 12.0)%float then "Good"
      else if (v <=? 35.4)%float then "Moderate"
      else if (v <=? 55.4)%float then "Unhealthy for Sensitive Groups"
      else if (v <=? 150.4)%float then "Unhealthy"
      else if (v <=? 250.4)%float then "Very Unhealthy"
      else "Hazardous"
  end.

(** ** Configuration *)

Definition READ_INTERVAL_SEC : Z := 5.
Definition HISTORY_SECONDS : Z := 15 * 60.

(** ** Timestamps

    What the rolling window does with a timestamp: [row["ts"] -
    HISTORY_SECONDS] and [r["ts"] >= cutoff]. *)

Class Timestamp (T : Type) : Type := {
  ts_minus : T -> Z -> T;
  ts_ge : T -> T -> bool
}.

(** The value of [time.time()] is a float: float subtraction of the
    converted integer, IEEE comparison. *)
#[export] Instance float_timestamp : Timestamp float := {|
  ts_minus t n := (t - PyFloat.of_Z n)%float;
  ts_ge a b := (b <=? a)%float
|}.

(** Whole seconds. *)
#[export] Instance Z_timestamp : Timestamp Z := {|
  ts_minus := Z.sub;
  ts_ge := Z.geb
|}.

(** ** Exceptions *)

Inductive result (A : Type) : Type :=
| Ok (a : A)
| Raise (e : string).
Arguments Ok {A} a.
Arguments Raise {A} e.

Definition bind {A B : Type} (r : result A) (k : A -> result B) : result B :=
  match r with
  | Ok a => k a
  | Raise e => Raise e
  end.

Notation "x <- r ;; k" := (bind r (fun x => k))
  (at level 61, r at next level, right associativity).

(** ** Readings *)

Record Reading (T : Type) : Type := mkReading {
  ts : T;
  temp_c : float;
  temp_f : float;
  humidity : float;
  pm1 : option float;
  pm25 : option float;
  pm10 : option float;
  aqi_category : string
}.

(** The dict returned by the particulate sensor's [read()]; its values are
    the sensor's counts, held as the floats [float()] makes of them. *)
Definition aqdata : Type := list (string * float).

Fixpoint dict_get (key : string) (d : aqdata) : option float :=
  match d with
  | [] => None
  | (k, v) :: d' => if String.eqb k key then Some v else dict_get key d'
  end.

(** What the hardware and the clock answer during one call of
    [read_sensors_once]: each sensor access returns or raises. *)
Record Sensors (T : Type) : Type := mkSensors {
  aht_temperature : result float;
  aht_relative_humidity : result float;
  pm25_read : result aqdata;
  time_time : T
}.

Section SensorReader.
Context {T : Type}.

Definition read_sensors_once (hw : Sensors T) : result (Reading T) :=
  temp_c <- aht_temperature hw ;;
  let temp_f := (temp_c * 9.0 / 5.0 + 32.0)%float in
  humidity <- aht_relative_humidity hw ;;
  aqdata <- pm25_read hw ;;
  let pm1 := dict_get "pm10 standard" aqdata in
  let pm25_std := dict_get "pm25 standard" aqdata in
  let pm10 := dict_get "pm100 standard" aqdata in
  let ts := time_time hw in
  let aqi_cat := aqi_category_from_pm25 pm25_std in
  Ok {| ts := ts;
        temp_c := PyFloat.round1 temp_c;
        temp_f := PyFloat.round1 temp_f;
        humidity := PyFloat.round1 humidity;
        pm1 := pm1;
        pm25 := pm25_std;
        pm10 := pm10;
        aqi_category := aqi_cat |}.

End SensorReader.

(** ** History store: the module-level [history] and [last_row] *)

Record Store (T : Type) : Type := mkStore {
  history : list (Reading T);
  last_row : option (Reading T)
}.

Section HistoryStore.
Context {T : Type} `{Timestamp T}.

(** The state at import time: [history = []], [last_row = None]. *)
Definition empty_store : Store T := {| history := []; last_row := None |}.

(** The test of the list comprehension, for the cutoff of [row]. *)
Definition in_window (row r : Reading T) : bool :=
  ts_ge (ts r) (ts_minus (ts row) HISTORY_SECONDS).

(** The block of [sensor_loop] under [history_lock]. *)
Definition record (st : Store T) (row : Reading T) : Store T :=
  let history1 := history st ++ [row] in
  let last_row1 := Some row in
  let cutoff := ts_minus (ts row) HISTORY_SECONDS in
  {| history := filter (fun r => ts_ge (ts r) cutoff) history1;
     last_row := last_row1 |}.

(** The block of [api_data] under [history_lock]. *)
Definition snapshot_latest (st : Store T) : option (Reading T) := last_row st.

(** The block of [api_history] under [history_lock]: [list(history)]. *)
Definition snapshot_history (st : Store T) : list (Reading T) := history st.

(** Successive [record] calls. *)
Definition record_all (st : Store T) (rows : list (Reading T)) : Store T :=
  fold_left record rows st.

(** [a < b] on timestamps, through the one comparison the code uses. *)
Definition ts_lt (a b : T) : Prop := ts_ge b a = true /\ ts_ge a b = false.

(** Readings whose timestamps grow strictly from each one to the next. *)
Fixpoint increasing (rows : list (Reading T)) : Prop :=
  match rows with
  | r :: rest =>
      match rest with
      | r' :: _ => ts_lt (ts r) (ts r')
      | [] => True
      end /\ increasing rest
  | [] => True
  end.

(** Readings whose timestamps never go back from one to the next. *)
Fixpoint nondecreasing (rows : list (Reading T)) : Prop :=
  match rows with
  | r :: rest =>
      match rest with
      | r' :: _ => ts_ge (ts r') (ts r) = true
      | [] => True
      end /\ nondecreasing rest
  | [] => True
  end.

(** The invariant of the window: every entry is within the window length
    of the reading inserted last; nothing is stored before the first one. *)
Definition window_invariant (st : Store T) : Prop :=
  match last_row st with
  | Some latest => Forall (fun r => in_window latest r = true) (history st)
  | None => history st = []
  end.

End HistoryStore.

(** The last element of a list, if any. *)
Fixpoint last_opt {A : Type} (l : list A) : option A :=
  match l with
  | [] => None
  | a :: l' => match l' with [] => Some a | _ :: _ => last_opt l' end
  end.

(** [s] is what remains of [l] once a prefix is cut off. *)
Definition suffix_of {A : Type} (s l : list A) : Prop :=
  exists pre, l = pre ++ s.

(** A reading taken at time [t], with the values of a quiet room. *)
Definition reading_at {T : Type} (t : T) : Reading T :=
  {| ts := t; temp_c := 22.0; temp_f := 71.6; humidity := 45.0;
     pm1 := Some 6%float; pm25 := Some 10%float; pm10 := Some 12%float;
     aqi_category := "Good" |}.

(** The sensors of that room, read at time [t]. *)
Definition sensors_at {T : Type} (t : T) : Sensors T :=
  {| aht_temperature := Ok 22.0%float;
     aht_relative_humidity := Ok 45.0%float;
     pm25_read := Ok [("pm10 standard", 6%float); ("pm25 standard", 10.0%float);
                      ("pm100 standard", 12%float)];
     time_time := t |}.

(** ** Session log and poll loop *)

(** One line of the session file. *)
Inductive csv_line : Type :=
| Header (fieldnames : list string)
| Line (time_iso : string) (temp_c temp_f humidity : float)
       (pm1 pm25 pm10 : option float) (aqi_category : string).

Definition csv_fieldnames : list string :=
  ["time_iso"; "temp_c"; "temp_f"; "humidity"; "pm1"; "pm25"; "pm10";
   "aqi_category"].

(** What the process does that can be seen from outside, in program order. *)
Inductive event (T : Type) : Type :=
| EvRecord (row : Reading T)
| EvCsvRow (row : Reading T)
| EvPrintLogged (row : Reading T)
| EvPrintError (msg e : string)
| EvSleep (secs : Z).
Arguments EvPrintError {T} msg e.
Arguments EvSleep {T} secs.

(** The process state: the history store, the session file ([None] while
    it does not exist) and the events so far. *)
Record World (T : Type) : Type := mkWorld {
  store : Store T;
  log_file : option (list csv_line);
  trace : list (event T)
}.

(** What the file system answers while one row is appended: the error
    raised, if any, by opening the file, by writing the header and by
    writing the row. *)
Record CsvIO : Type := mkCsvIO {
  open_error : option string;
  header_error : option string;
  row_error : option string
}.

(** What one poll iteration meets: the sensors' answers and the file
    system's. *)
Record Tick (T : Type) : Type := mkTick {
  sensors : Sensors T;
  csv_io : CsvIO
}.

Section PollLoop.
Context {T : Type} `{Timestamp T}.

(** [datetime.fromtimestamp(ts).isoformat(timespec="seconds")], which
    raises on a timestamp out of range. *)
Variable isoformat : T -> result string.

Definition emit (e : event T) (w : World T) : World T :=
  {| store := store w; log_file := log_file w; trace := trace w ++ [e] |}.

(** The body of the [try] of [append_to_csv]: the session file afterwards
    and whether the block raised.  Opening in append mode creates the
    file. *)
Definition write_row (io : CsvIO) (file_exists : bool)
    (file : option (list csv_line)) (row : Reading T)
    : option (list csv_line) * result unit :=
  match open_error io with
  | Some e => (file, Raise e)
  | None =>
      let f := match file with Some ls => ls | None => [] end in
      match (if file_exists then None else header_error io) with
      | Some e => (Some f, Raise e)
      | None =>
          let f := if file_exists then f else f ++ [Header csv_fieldnames] in
          match isoformat (ts row) with
          | Raise e => (Some f, Raise e)
          | Ok dt =>
              match row_error io with
              | Some e => (Some f, Raise e)
              | None =>
                  (Some (f ++ [Line dt (temp_c row) (temp_f row) (humidity row)
                                 (pm1 row) (pm25 row) (pm10 row)
                                 (aqi_category row)]),
                   Ok tt)
              end
          end
      end
  end.

Definition append_to_csv (io : CsvIO) (row : Reading T) (w : World T) : World T :=
  let file_exists := match log_file w with Some _ => true | None => false end in
  let (file, outcome) := write_row io file_exists (log_file w) row in
  let w' := {| store := store w; log_file := file; trace := trace w |} in
  match outcome with
  | Ok _ => emit (EvCsvRow row) w'
  | Raise e => emit (EvPrintError "CSV write error:" e) w'
  end.

(** One iteration of the [while True] of [sensor_loop]. *)
Definition sensor_loop_body (tick : Tick T) (w : World T) : World T :=
  let w1 :=
    match read_sensors_once (sensors tick) with
    | Ok row =>
        let w2 :=
          emit (EvRecord row)
            {| store := record (store w) row;
               log_file := log_file w;
               trace := trace w |} in
        let w3 := append_to_csv (csv_io tick) row w2 in
        emit (EvPrintLogged row) w3
    | Raise e => emit (EvPrintError "Sensor read error:" e) w
    end in
  emit (EvSleep READ_INTERVAL_SEC) w1.

(** The loop, over the iterations that have happened so far. *)
Definition sensor_loop (ticks : list (Tick T)) (w : World T) : World T :=
  fold_left (fun w tick => sensor_loop_body tick w) ticks w.

Definition is_sleep (e : event T) : bool :=
  match e with EvSleep _ => true | _ => false end.

(** The process as it starts: nothing recorded, no session file yet. *)
Definition initial_world : World T :=
  {| store := empty_store; log_file := None; trace := [] |}.

(** The readings of the sensor reads that succeeded, in order. *)
Definition readings_of (ticks : list (Tick T)) : list (Reading T) :=
  flat_map (fun tick =>
              match read_sensors_once (sensors tick) with
              | Ok row => [row]
              | Raise _ => []
              end) ticks.

End PollLoop.

(** ** HTTP service *)

(** The dict of [get_system_info()]; a lookup that failed is [None] or the
    string ["N/A"]. *)
Record SystemInfo : Type := mkSystemInfo {
  cpu_temp_f : option float;
  uptime : string;
  ip : string;
  wifi_rssi : option Z
}.

(** The JSON bodies of the two API routes. *)
Inductive json (T : Type) : Type :=
| JError (ok : bool) (error : string)
| JData (ok : bool) (data : Reading T) (system : SystemInfo)
| JPoints (ok : bool) (points : list (Reading T)).
Arguments JError {T} ok error.

(** Body and HTTP status. *)
Definition response (T : Type) : Type := (json T * Z)%type.

Section HttpService.
Context {T : Type} `{Timestamp T}.

(** A row is a dict of eight keys, never falsy: [not row] holds for [None]
    only.  [float(row["ts"])] is the timestamp itself. *)
Definition api_data (st : Store T) (sysinfo : SystemInfo) : response T :=
  match snapshot_latest st with
  | None => (JError false "No data yet", 503)
  | Some row =>
      let out :=
        {| ts := ts row; temp_c := temp_c row; temp_f := temp_f row;
           humidity := humidity row; pm1 := pm1 row; pm25 := pm25 row;
           pm10 := pm10 row; aqi_category := aqi_category row |} in
      (JData true out sysinfo, 200)
  end.

Definition api_history (st : Store T) : response T :=
  let pts := snapshot_history st in
  (JPoints true pts, 200).

End HttpService.

(** ** System information provider *)

(** The float of an integer, as [int / float] makes it: the nearest
    binary64 value, or an overflow error. *)
Definition float_of_int (n : Z) : result float :=
  match binary_normalize prec emax n 0 false with
  | S754_infinity _ => Raise "int too large to convert to float"
  | x => Ok (SF2Prim x)
  end.

(** [thermal] is what [int(f.read().strip())] on the thermal zone file
    gives: the millidegrees, or the error raised on the way. *)
Definition get_cpu_temp_f (thermal : result Z) : option float :=
  let attempt :=
    milli <- thermal ;;
    x <- float_of_int milli ;;
    let c := (x / 1000.0)%float in
    let f_deg := (c * 9.0 / 5.0 + 32.0)%float in
    Ok (PyFloat.round1 f_deg) in
  match attempt with
  | Ok v => Some v
  | Raise _ => None
  end.

(** [str(n)]: the decimal digits, after a minus sign for a negative
    integer. *)
Definition decimal (n : Z) : string := NilZero.string_of_int (Z.to_int n).

(** The format [02d]: zero-padded to two columns, the sign taking one. *)
Definition format_02d (n : Z) : string :=
  let s := decimal n in
  if (String.length s <? 2)%nat then "0" ++ s else s.

(** [divmod] rounds the quotient down, as [Z.div_eucl] does for a positive
    divisor. *)
Definition format_uptime (seconds : option Z) : string :=
  match seconds with
  | None => "N/A"
  | Some seconds =>
      let (m, s) := Z.div_eucl seconds 60 in
      let (h, m) := Z.div_eucl m 60 in
      format_02d h ++ ":" ++ format_02d m ++ ":" ++ format_02d s
  end.

(** Reading an uptime back: the text up to the first colon and the rest. *)
Fixpoint split_colon (s : string) : option (string * string) :=
  match s with
  | "" => None
  | String c s' =>
      if Ascii.eqb c ":" then Some ("", s')
      else match split_colon s' with
           | Some (a, b) => Some (String c a, b)
           | None => None
           end
  end.

Definition parse_field (s : string) : option Z :=
  option_map Z.of_int (NilZero.int_of_string s).

(** The seconds that a text [H:M:S] stands for. *)
Definition parse_uptime (s : string) : option Z :=
  match split_colon s with
  | Some (hh, rest) =>
      match split_colon rest with
      | Some (mm, ss) =>
          match parse_field hh, parse_field mm, parse_field ss with
          | Some h, Some m, Some s => Some (3600 * h + 60 * m + s)
          | _, _, _ => None
          end
      | None => None
      end
  | None => None
  end.

(** [lo; lo + 1; ...], [n] values. *)
Fixpoint range (lo : Z) (n : nat) : list Z :=
  match n with
  | O => []
  | S k => lo :: range (lo + 1) k
  end.

(** [PyFloat.tenths] with shifts and masks for the power of two. *)
Definition tenths_fast (m : positive) (e : Z) : Z :=
  match e with
  | Zneg p =>
      let n := 10 * Zpos m in
      let q := Z.shiftr n (Zpos p) in
      match 2 * Z.land n (Z.ones (Zpos p)) ?= Z.shiftl 1 (Zpos p) with
      | Lt => q
      | Eq => if Z.even q then q else q + 1
      | Gt => q + 1
      end
  | _ => 10 * Zpos m * 2 ^ e
  end.

(** Sign and tenths of the Fahrenheit value computed for [milli]. *)
Definition cpu_tenths (milli : Z) : option (bool * Z) :=
  match float_of_int milli with
  | Ok x =>
      match Prim2SF (x / 1000.0 * 9.0 / 5.0 + 32.0)%float with
      | S754_finite s m e => Some (s, tenths_fast m e)
      | _ => None
      end
  | Raise _ => None
  end.

(** The tenths are within one half of ten times the exact value
    [milli * 9 / 5000 + 32], both sides multiplied by 500. *)
Definition cpu_check (milli : Z) : bool :=
  match cpu_tenths milli with
  | Some (s, q) =>
      Z.abs (9 * milli + 160000 - 500 * (if s then - q else q)) <=? 250
  | None => false
  end.

(** ** Dashboard script *)

(** [toLowerCase] on a letter of the ASCII alphabet; the characters
    outside it take no part in the prefixes that [aqiClass] tests. *)
Definition to_lower (c : ascii) : ascii :=
  let n := nat_of_ascii c in
  if andb (Nat.leb 65 n) (Nat.leb n 90) then ascii_of_nat (n + 32) else c.

Fixpoint toLowerCase (s : string) : string :=
  match s with
  | "" => ""
  | String c s' => String (to_lower c) (toLowerCase s')
  end.

(** [c.startsWith(p)]. *)
Definition startsWith (c p : string) : bool := String.prefix p c.

(** The CSS class of a category; [None] is a null or undefined value, and
    [!cat] holds of it and of the empty string. *)
Definition aqiClass (cat : option string) : string :=
  match cat with
  | None => ""
  | Some "" => ""
  | Some cat =>
      let c := toLowerCase cat in
      if startsWith c "good" then "aq-good"
      else if startsWith c "moderate" then "aq-moderate"
      else if startsWith c "unhealthy for sensitive" then "aq-unhealthy-sg"
      else if startsWith c "unhealthy" then "aq-unhealthy"
      else if startsWith c "very unhealthy" then "aq-very-unhealthy"
      else if startsWith c "hazardous" then "aq-hazardous"
      else ""
  end.

(** ** Session file *)

(** The lines of the session file, none while it does not exist. *)
Definition lines (file : option (list csv_line)) : list csv_line :=
  match file with
  | Some ls => ls
  | None => []
  end.

Definition is_header (l : csv_line) : bool :=
  match l with
  | Header _ => true
  | Line _ _ _ _ _ _ _ _ => false
  end.

(** The line that [append_to_csv] writes for [row] at the time text [dt]. *)
Definition line_of {T : Type} (dt : string) (row : Reading T) : csv_line :=
  Line dt (temp_c row) (temp_f row) (humidity row)
    (pm1 row) (pm25 row) (pm10 row) (aqi_category row).

(** [p] is what [l] starts with. *)
Definition prefix_of {A : Type} (p l : list A) : Prop :=
  exists rest, l = p ++ rest.

(** ** Wireless status *)

(** [s[n:]]. *)
Fixpoint drop (n : nat) (s : string) : string :=
  match n, s with
  | O, _ => s
  | S n', String _ s' => drop n' s'
  | S _, "" => ""
  end.

(** [sub in s]. *)
Fixpoint contains (sub s : string) : bool :=
  if String.prefix sub s then true
  else match s with
       | "" => false
       | String _ s' => contains sub s'
       end.

(** The text after the first occurrence of [sep], if there is one. *)
Fixpoint after_first (sep s : string) : option string :=
  if String.prefix sep s then Some (drop (String.length sep) s)
  else match s with
       | "" => None
       | String _ s' => after_first sep s'
       end.

(** [s.split(sep)[0]]: the text before the first occurrence of [sep], all
    of [s] when there is none. *)
Fixpoint before_first (sep s : string) : string :=
  if String.prefix sep s then ""
  else match s with
       | "" => ""
       | String c s' => String c (before_first sep s')
       end.

(** [s.split(sep)[1]]: the text between the first occurrence of [sep] and
    the next one; an index error when [sep] does not occur. *)
Definition split_second (sep s : string) : result string :=
  match after_first sep s with
  | Some rest => Ok (before_first sep rest)
  | None => Raise "list index out of range"
  end.

(** The one-byte line boundaries of [splitlines]: line feed, vertical tab,
    form feed, carriage return, file, group and record separator. *)
Definition is_break (c : ascii) : bool :=
  match nat_of_ascii c with
  | 10 | 11 | 12 | 13 | 28 | 29 | 30 => true
  | _ => false
  end%nat.

Definition is_byte (n : nat) (c : ascii) : bool := Nat.eqb (nat_of_ascii c) n.

(** [s.splitlines()] on the UTF-8 bytes of a text: besides the one-byte
    boundaries, carriage return and line feed together are one boundary,
    and so are next line (C2 85), line separator (E2 80 A8) and paragraph
    separator (E2 80 A9).  [cur] is the line read so far. *)
Fixpoint splitlines_aux (s cur : string) : list string :=
  match s with
  | "" => match cur with "" => [] | String _ _ => [cur] end
  | String c s1 =>
      if is_break c then
        match s1 with
        | String c2 s2 =>
            if andb (is_byte 13 c) (is_byte 10 c2)
            then cur :: splitlines_aux s2 ""
            else cur :: splitlines_aux s1 ""
        | "" => cur :: splitlines_aux s1 ""
        end
      else
        match s1 with
        | String c2 s2 =>
            if andb (is_byte 194 c) (is_byte 133 c2)
            then cur :: splitlines_aux s2 ""
            else
              match s2 with
              | String c3 s3 =>
                  if andb (is_byte 226 c)
                       (andb (is_byte 128 c2)
                          (orb (is_byte 168 c3) (is_byte 169 c3)))
                  then cur :: splitlines_aux s3 ""
                  else splitlines_aux s1 (cur ++ String c "")
              | "" => splitlines_aux s1 (cur ++ String c "")
              end
        | "" => splitlines_aux s1 (cur ++ String c "")
        end
  end.

Definition splitlines (s : string) : list string := splitlines_aux s "".

Definition line_feed : ascii := "010"%char.

Section WirelessStatus.
(** Python's [int] on a text: the integer, or the error raised. *)
Variable py_int : string -> result Z.

Definition marker : string := "Signal level=".

(** The [for] loop over the lines. *)
Fixpoint scan_lines (ls : list string) : result (option Z) :=
  match ls with
  | [] => Ok None
  | line :: ls' =>
      if contains marker line then
        parts <- split_second marker line ;;
        let dbm_str := before_first " " parts in
        n <- py_int dbm_str ;;
        Ok (Some n)
      else scan_lines ls'
  end.

(** [iwconfig] is the text that the command printed, or the error raised
    by running it. *)
Definition get_wifi_rssi (iwconfig : result string) : option Z :=
  match out <- iwconfig ;; scan_lines (splitlines out) with
  | Ok v => v
  | Raise _ => None
  end.
End WirelessStatus.



(** [int] on a plain decimal text, for running the model. *)
Definition ascii_int (s : string) : result Z :=
  match NilZero.int_of_string s with
  | Some d => Ok (Z.of_int d)
  | None => Raise "invalid literal for int() with base 10"
  end.

(** Every character of [s] passes [p]. *)
Fixpoint all_chars (p : ascii -> bool) (s : string) : bool :=
  match s with
  | "" => true
  | String c s' => andb (p c) (all_chars p s')
  end.

(** A byte that neither is nor starts a line boundary. *)
Definition calm (c : ascii) : bool :=
  negb (orb (is_break c) (orb (is_byte 194 c) (is_byte 226 c))).

(** A character of a value: no space, and not the first letter of the
    marker. *)
Definition token_char (c : ascii) : bool :=
  andb (calm c) (negb (orb (Ascii.eqb c " ") (Ascii.eqb c "S"))).

(** The lines, each ended by a line feed. *)
Fixpoint join_lines (ls : list string) : string :=
  match ls with
  | [] => ""
  | l :: ls' => l ++ String line_feed (join_lines ls')
  end.

(** A text without a colon. *)
Definition no_colon (s : string) : Prop :=
  forall c, In c (list_ascii_of_string s) -> c <> ":"%char.

(** A header sits on the first line of the session file or nowhere. *)
Definition header_first (ls : list csv_line) : Prop :=
  Forall (fun l => is_header l = false) (tl ls).

(** A file system that raises nothing. *)
Definition healthy (io : CsvIO) : Prop :=
  open_error io = None /\ header_error io = None /\ row_error io = None.

(** ** Threads around [history_lock]

    The poll loop in the middle of one record call and any number of request
    handlers, interleaved statement by statement.  A thread that waits for
    the lock does not move. *)

Module Threads.

Inductive thread : Type :=
| Poller
| Handler (i : nat).

(** Where the poll loop stands in its [with history_lock:] block. *)
Inductive poller_pc : Type :=
| PEnter     (* about to acquire the lock *)
| PAppend    (* about to run history.append(row) *)
| PSetLast   (* about to run last_row = row *)
| PEvict     (* about to compute the cutoff and assign history[:] *)
| PExit      (* about to release the lock *)
| PDone.

Inductive route : Type :=
| ApiData
| ApiHistory.

(** What a handler copied under the lock: [row] or [pts]. *)
Inductive snapshot (T : Type) : Type :=
| Latest (row : option (Reading T))
| Points (pts : list (Reading T)).

(** Where a handler stands in its [with history_lock:] block. *)
Inductive handler_pc (T : Type) : Type :=
| HEnter                     (* about to acquire the lock *)
| HRead                      (* about to copy last_row or history *)
| HExit (seen : snapshot T)  (* about to release the lock *)
| HDone (seen : snapshot T).
Arguments HEnter {T}.
Arguments HRead {T}.

Record config (T : Type) : Type := mkConfig {
  mem : Store T;
  lock : option thread;
  poller : poller_pc;
  handlers : list (route * handler_pc T)
}.

Fixpoint update {A : Type} (l : list A) (i : nat) (a : A) : list A :=
  match l, i with
  | [], _ => []
  | _ :: l', O => a :: l'
  | b :: l', S i' => b :: update l' i' a
  end.

Section Interleaving.
Context {T : Type} `{Timestamp T}.

Definition read (rt : route) (st : Store T) : snapshot T :=
  match rt with
  | ApiData => Latest (snapshot_latest st)
  | ApiHistory => Points (snapshot_history st)
  end.

Definition poller_step (row : Reading T) (c : config T) : config T :=
  match poller c with
  | PEnter =>
      match lock c with
      | None =>
          {| mem := mem c; lock := Some Poller; poller := PAppend;
             handlers := handlers c |}
      | Some _ => c
      end
  | PAppend =>
      {| mem := {| history := history (mem c) ++ [row];
                   last_row := last_row (mem c) |};
         lock := lock c; poller := PSetLast; handlers := handlers c |}
  | PSetLast =>
      {| mem := {| history := history (mem c); last_row := Some row |};
         lock := lock c; poller := PEvict; handlers := handlers c |}
  | PEvict =>
      let cutoff := ts_minus (ts row) HISTORY_SECONDS in
      {| mem := {| history :=
                     filter (fun r => ts_ge (ts r) cutoff) (history (mem c));
                   last_row := last_row (mem c) |};
         lock := lock c; poller := PExit; handlers := handlers c |}
  | PExit =>
      {| mem := mem c; lock := None; poller := PDone; handlers := handlers c |}
  | PDone => c
  end.

Definition handler_step (i : nat) (c : config T) : config T :=
  match nth_error (handlers c) i with
  | None => c
  | Some (rt, pc) =>
      match pc with
      | HEnter =>
          match lock c with
          | None =>
              {| mem := mem c; lock := Some (Handler i); poller := poller c;
                 handlers := update (handlers c) i (rt, HRead) |}
          | Some _ => c
          end
      | HRead =>
          {| mem := mem c; lock := lock c; poller := poller c;
             handlers := update (handlers c) i (rt, HExit (read rt (mem c))) |}
      | HExit seen =>
          {| mem := mem c; lock := None; poller := poller c;
             handlers := update (handlers c) i (rt, HDone seen) |}
      | HDone _ => c
      end
  end.

(** One statement of thread [t]. *)
Definition step (row : Reading T) (t : thread) (c : config T) : config T :=
  match t with
  | Poller => poller_step row c
  | Handler i => handler_step i c
  end.

(** A schedule: which thread moves next, step after step. *)
Definition run (row : Reading T) (sched : list thread) (c : config T) : config T :=
  fold_left (fun c t => step row t c) sched c.

(** The record call is about to start on the store [st]; the handlers of
    the requests [routes] have not entered their block yet. *)
Definition start (st : Store T) (routes : list route) : config T :=
  {| mem := st; lock := None; poller := PEnter;
     handlers := map (fun rt => (rt, HEnter)) routes |}.

(** The next statement of thread [t] reads or writes [history] or
    [last_row]. *)
Definition accesses (t : thread) (c : config T) : bool :=
  match t with
  | Poller =>
      match poller c with
      | PAppend | PSetLast | PEvict => true
      | _ => false
      end
  | Handler i =>
      match nth_error (handlers c) i with
      | Some (_, HRead) => true
      | _ => false
      end
  end.

(** What a handler has copied, once it has. *)
Definition observed (pc : handler_pc T) : option (snapshot T) :=
  match pc with
  | HExit seen | HDone seen => Some seen
  | _ => None
  end.

(** The thread holds the lock, by where it stands. *)
Definition poller_in (pc : poller_pc) : bool :=
  match pc with
  | PAppend | PSetLast | PEvict | PExit => true
  | _ => false
  end.

Definition handler_in (pc : handler_pc T) : bool :=
  match pc with
  | HRead | HExit _ => true
  | _ => false
  end.

(** The store while a record call of [row] on [st] stands at [pc]. *)
Definition mem_at (st : Store T) (row : Reading T) (pc : poller_pc) : Store T :=
  match pc with
  | PEnter | PAppend => st
  | PSetLast => {| history := history st ++ [row]; last_row := last_row st |}
  | PEvict => {| history := history st ++ [row]; last_row := Some row |}
  | PExit | PDone => record st row
  end.

(** What holds of every configuration reached while [row] is recorded on
    [st]. *)
Record invariant (st : Store T) (row : Reading T) (c : config T) : Prop := {
  inv_mem : mem c = mem_at st row (poller c);
  inv_poller : poller_in (poller c) = true <-> lock c = Some Poller;
  inv_handlers :
    forall i rt pc,
      nth_error (handlers c) i = Some (rt, pc) ->
      (handler_in pc = true <-> lock c = Some (Handler i)) /\
      (forall seen, observed pc = Some seen ->
                    seen = read rt st \/ seen = read rt (record st row))
}.

End Interleaving.

End Threads.

(** ** Threads: the end of the blocks *)

Section Finished.
Context {T : Type}.

Definition is_done (h : Threads.route * Threads.handler_pc T) : bool :=
  match snd h with
  | Threads.HDone _ => true
  | _ => false
  end.

(** Every thread has left its block. *)
Definition finished (c : Threads.config T) : Prop :=
  Threads.poller c = Threads.PDone /\
  forallb is_done (Threads.handlers c) = true.

(** The handler that holds the lock is one of the handlers. *)
Definition owner_exists (c : Threads.config T) : Prop :=
  forall i, Threads.lock c = Some (Threads.Handler i) ->
            exists rt pc, nth_error (Threads.handlers c) i = Some (rt, pc).

End Finished.

(** * Properties *)

Unset Implicit Arguments.

(** ** Order facts on binary64 values *)

Module FloatOrder.

Lemma compare_cont_Eq (m n : positive) :
  PosDef.Pos.compare_cont Eq m n = Pos.compare m n.
Proof. reflexivity. Qed.

(** Swapping the arguments of a comparison mirrors its result. *)
Lemma SFcompare_swap (x y : spec_float) (c : comparison) :
  SFcompare x y = Some c -> SFcompare y x = Some (CompOpp c).
Proof.
  destruct x as [sx | sx | | sx mx ex], y as [sy | sy | | sy my ey];
    simpl; intros E; try discriminate; injection E as <-;
    try (destruct sx); try (destruct sy); try reflexivity.
  all: rewrite !compare_cont_Eq, (Z.compare_antisym ex ey),
    (Pos.compare_antisym mx my);
    destruct (ex ?= ey); simpl; try reflexivity;
    destruct (mx ?= my); reflexivity.
Qed.

(** [c < v] excludes [v <= c], NaN included. *)
Lemma ltb_leb_false (c v : float) :
  (c <? v)%float = true -> (v <=? c)%float = false.
Proof.
  rewrite ltb_spec, leb_spec. unfold SFltb, SFleb.
  destruct (SFcompare (Prim2SF c) (Prim2SF v)) as [k |] eqn:E; try discriminate.
  rewrite (SFcompare_swap _ _ _ E).
  destruct k; simpl; congruence.
Qed.

(** [<=] on spec floats is transitive (a NaN is below nothing). *)
Lemma SFleb_trans (x y z : spec_float) :
  SFleb x y = true -> SFleb y z = true -> SFleb x z = true.
Proof.
  unfold SFleb.
  destruct x as [sx | sx | | sx mx ex], y as [sy | sy | | sy my ey],
    z as [sz | sz | | sz mz ez]; simpl; try discriminate; try reflexivity;
    try (destruct sx); try (destruct sy); try (destruct sz);
    simpl; try discriminate; try reflexivity;
    repeat match goal with
      | |- context [PosDef.Pos.compare_cont Eq ?a ?b] =>
          change (PosDef.Pos.compare_cont Eq a b) with (Pos.compare a b)
      end;
    destruct (Z.compare_spec ex ey), (Z.compare_spec ey ez),
      (Z.compare_spec ex ez); simpl; try discriminate; try reflexivity;
      try lia;
    destruct (Pos.compare_spec mx my), (Pos.compare_spec my mz),
      (Pos.compare_spec mx mz); simpl; try discriminate; try reflexivity;
      try lia.
Qed.

Lemma leb_trans (x y z : float) :
  (x <=? y)%float = true -> (y <=? z)%float = true -> (x <=? z)%float = true.
Proof. rewrite !leb_spec. apply SFleb_trans. Qed.

(** A value that is not below a bound is not below a smaller bound. *)
Lemma leb_false_below (v c1 c2 : float) :
  (c1 <=? c2)%float = true -> (v <=? c2)%float = false ->
  (v <=? c1)%float = false.
Proof.
  intros Hc Hv. destruct (v <=? c1)%float eqn:E; [| reflexivity].
  rewrite (leb_trans _ _ _ E Hc) in Hv. discriminate.
Qed.

(** [>=] on float timestamps is transitive. *)
Lemma float_ge_trans (a b c : float) :
  ts_ge a b = true -> ts_ge b c = true -> ts_ge a c = true.
Proof. simpl. intros Hab Hbc. exact (leb_trans c b a Hbc Hab). Qed.

End FloatOrder.

(** ** Air-quality category *)

Lemma aqi_category_cases (p : option float) :
  In (aqi_category_from_pm25 p)
     ["Unknown"; "Good"; "Moderate"; "Unhealthy for Sensitive Groups";
      "Unhealthy"; "Very Unhealthy"; "Hazardous"].
Proof.
  destruct p as [v |]; simpl; auto.
  repeat match goal with
         | |- context [if ?b then _ else _] => destruct b
         end; auto 10.
Qed.

(** C4: the category is a function of the PM2.5 value alone and follows the
    breakpoint table with inclusive upper bounds: Good up to 12.0, Moderate
    above 12.0 up to 35.4, Unhealthy for Sensitive Groups above 35.4 up to
    55.4, Unhealthy above 55.4 up to 150.4, Very Unhealthy above 150.4 up to
    250.4, Hazardous above 250.4; it is Unknown exactly when the value is
    absent.  The boundary values 12.0, 12.1, 35.4, 35.5, 55.4, 55.5, 150.4,
    150.5, 250.4 and 250.5 fall as the table says. *)
Theorem aqi_category_breakpoints :
  (forall v : float,
      ((v <=? 12.0)%float = true ->
       aqi_category_from_pm25 (Some v) = "Good") /\
      ((12.0 <? v)%float = true -> (v <=? 35.4)%float = true ->
       aqi_category_from_pm25 (Some v) = "Moderate") /\
      ((35.4 <? v)%float = true -> (v <=? 55.4)%float = true ->
       aqi_category_from_pm25 (Some v) = "Unhealthy for Sensitive Groups") /\
      ((55.4 <? v)%float = true -> (v <=? 150.4)%float = true ->
       aqi_category_from_pm25 (Some v) = "Unhealthy") /\
      ((150.4 <? v)%float = true -> (v <=? 250.4)%float = true ->
       aqi_category_from_pm25 (Some v) = "Very Unhealthy") /\
      ((250.4 <? v)%float = true ->
       aqi_category_from_pm25 (Some v) = "Hazardous")) /\
  (forall p : option float,
      aqi_category_from_pm25 p = "Unknown" <-> p = None) /\
  map aqi_category_from_pm25
    [Some 12.0; Some 12.1; Some 35.4; Some 35.5; Some 55.4; Some 55.5;
     Some 150.4; Some 150.5; Some 250.4; Some 250.5; None]%float
  = ["Good"; "Moderate"; "Moderate"; "Unhealthy for Sensitive Groups";
     "Unhealthy for Sensitive Groups"; "Unhealthy"; "Unhealthy";
     "Very Unhealthy"; "Very Unhealthy"; "Hazardous"; "Unknown"].
Proof.
  split; [| split].
  - intros v. unfold aqi_category_from_pm25.
    repeat split; intros;
      repeat match goal with
             | H : (_ <? v)%float = true |- _ =>
                 apply FloatOrder.ltb_leb_false in H
             end;
      try match goal with
          | H : (v <=? ?c2)%float = false |- _ =>
              repeat match goal with
                     | |- context [(v <=? ?c1)%float] =>
                         rewrite (FloatOrder.leb_false_below v c1 c2
                                    (eq_refl true) H)
                     end
          end;
      repeat match goal with
             | H : (v <=? _)%float = _ |- _ => rewrite H; clear H
             end;
      reflexivity.
  - intros p. split.
    + destruct p as [v |]; [| reflexivity]. simpl.
      repeat match goal with
             | |- context [if ?b then _ else _] => destruct b
             end; discriminate.
    + intros ->. reflexivity.
  - reflexivity.
Qed.

(** A value between the first two breakpoints. *)
Lemma aqi_category_breakpoints_witness :
  (12.0 <? 20.0)%float = true /\ (20.0 <=? 35.4)%float = true /\
  aqi_category_from_pm25 (Some 20.0%float) = "Moderate".
Proof.
  split; [reflexivity | split; [reflexivity |]].
  apply (proj1 (proj2 (proj1 aqi_category_breakpoints 20.0%float)));
    reflexivity.
Defined.

(** ** Lists *)

Lemma filter_filter_absorb {A : Type} (f g : A -> bool) (l : list A) :
  (forall a, In a l -> f a = true -> g a = true) ->
  filter f (filter g l) = filter f l.
Proof.
  induction l as [| a l IH]; intros Himp; [reflexivity |].
  simpl. destruct (g a) eqn:Eg; simpl.
  - rewrite IH; [reflexivity |]. intros b Hb. apply Himp. now right.
  - destruct (f a) eqn:Ef.
    + rewrite (Himp a (or_introl eq_refl) Ef) in Eg. discriminate.
    + apply IH. intros b Hb. apply Himp. now right.
Qed.

Lemma filter_all_true {A : Type} (f : A -> bool) (l : list A) :
  (forall a, In a l -> f a = true) -> filter f l = l.
Proof.
  induction l as [| a l IH]; intros Hall; [reflexivity |].
  simpl. rewrite (Hall a (or_introl eq_refl)). f_equal.
  apply IH. intros b Hb. apply Hall. now right.
Qed.

Lemma last_opt_snoc {A : Type} (l : list A) (a : A) :
  last_opt (l ++ [a]) = Some a.
Proof.
  induction l as [| b l IH]; [reflexivity |].
  simpl. destruct (l ++ [a]) eqn:E; [| exact IH].
  destruct l; discriminate.
Qed.

(** ** History store *)

Section HistoryFacts.
Context {T : Type} `{Timestamp T}.

Lemma record_all_snoc (st : Store T) (rows : list (Reading T)) (row : Reading T) :
  record_all st (rows ++ [row]) = record (record_all st rows) row.
Proof. unfold record_all. now rewrite fold_left_app. Qed.

Lemma history_record (st : Store T) (row : Reading T) :
  history (record st row) = filter (in_window row) (history st ++ [row]).
Proof. reflexivity. Qed.

Lemma last_row_record (st : Store T) (row : Reading T) :
  last_row (record st row) = Some row.
Proof. reflexivity. Qed.

Lemma increasing_app_l (l l' : list (Reading T)) :
  increasing (l ++ l') -> increasing l.
Proof.
  induction l as [| a l IH]; intros Hinc; [exact I |].
  simpl in Hinc. destruct Hinc as [Hhd Htl]. split; [| now apply IH].
  destruct l; [exact I | exact Hhd].
Qed.

Lemma increasing_last_two (l : list (Reading T)) (y x : Reading T) :
  increasing (l ++ [y; x]) -> ts_lt (ts y) (ts x).
Proof.
  induction l as [| a l IH]; intros Hinc.
  - exact (proj1 Hinc).
  - apply IH. exact (proj2 Hinc).
Qed.

(** The laws of an ordinary clock: [>=] is transitive, subtracting the
    window length keeps the order, and a time is not before itself minus
    the window length.  They hold for the floats that are not NaN and for
    whole seconds. *)
Hypothesis ge_trans :
  forall a b c : T, ts_ge a b = true -> ts_ge b c = true -> ts_ge a c = true.
Hypothesis minus_mono :
  forall a b : T,
    ts_ge b a = true ->
    ts_ge (ts_minus b HISTORY_SECONDS) (ts_minus a HISTORY_SECONDS) = true.

(** A later cutoff keeps nothing that an earlier cutoff dropped. *)
Lemma in_window_later (y x r : Reading T) :
  ts_ge (ts x) (ts y) = true -> in_window x r = true -> in_window y r = true.
Proof.
  unfold in_window. intros Hyx Hr.
  exact (ge_trans _ _ _ Hr (minus_mono _ _ Hyx)).
Qed.

(** C1: for records with strictly increasing timestamps, starting from the
    empty history, the history after the last call is exactly the recorded
    readings whose timestamp is at least the last timestamp minus the window
    length (the boundary included), in insertion order. *)
Theorem window_after_increasing_records (rows : list (Reading T)) (row : Reading T) :
  increasing (rows ++ [row]) ->
  snapshot_history (record_all empty_store (rows ++ [row]))
  = filter (fun r => ts_ge (ts r) (ts_minus (ts row) HISTORY_SECONDS))
      (rows ++ [row]).
Proof.
  unfold snapshot_history. revert row.
  induction rows as [| y l IH] using rev_ind; intros x Hinc.
  - reflexivity.
  - rewrite record_all_snoc, history_record.
    rewrite (IH y (increasing_app_l _ [x] Hinc)).
    rewrite filter_app.
    change (fun r : Reading T => ts_ge (ts r) (ts_minus (ts y) HISTORY_SECONDS))
      with (in_window y).
    rewrite filter_filter_absorb.
    + rewrite <- filter_app. reflexivity.
    + intros r _. apply in_window_later.
      rewrite <- app_assoc in Hinc.
      exact (proj1 (increasing_last_two _ _ _ Hinc)).
Qed.

End HistoryFacts.

(** The records of the end-to-end case, in whole seconds: the readings at
    300, 600, 900 and 1200 remain. *)
Lemma window_after_increasing_records_witness :
  increasing (map reading_at [0; 300; 600; 900] ++ [reading_at 1200]) /\
  snapshot_history
    (record_all empty_store (map reading_at [0; 300; 600; 900] ++ [reading_at 1200]))
  = map reading_at [300; 600; 900; 1200].
Proof.
  assert (Hinc : increasing (map reading_at [0; 300; 600; 900] ++ [reading_at 1200])).
  { simpl. unfold ts_lt. simpl. repeat split. }
  split; [exact Hinc |].
  rewrite (@window_after_increasing_records Z Z_timestamp
             ltac:(simpl; intros; lia) ltac:(simpl; intros; lia) _ _ Hinc).
  vm_compute. reflexivity.
Defined.

(** The same records with float timestamps: the readings at 300, 600, 900
    and 1200 remain, the one at 0 is evicted. *)
Example window_end_to_end_float :
  snapshot_history
    (record_all empty_store (map reading_at [0; 300; 600; 900; 1200]%float))
  = map reading_at [300; 600; 900; 1200]%float.
Proof. vm_compute. reflexivity. Qed.

Example window_end_to_end_seconds :
  snapshot_history (record_all empty_store (map reading_at [0; 300; 600; 900; 1200]))
  = map reading_at [300; 600; 900; 1200].
Proof. vm_compute. reflexivity. Qed.

Section WindowInvariant.
Context {T : Type} `{Timestamp T}.

Lemma Forall_filter_true {A : Type} (f : A -> bool) (l : list A) :
  Forall (fun a => f a = true) (filter f l).
Proof.
  apply Forall_forall. intros a Ha. apply filter_In in Ha. tauto.
Qed.

Lemma window_invariant_record (st : Store T) (row : Reading T) :
  window_invariant (record st row).
Proof.
  unfold window_invariant. rewrite last_row_record, history_record.
  apply Forall_filter_true.
Qed.

(** C2: after every record call, whatever the timestamps, the reading just
    inserted is the latest one, the window is the previous window followed
    by the new reading restricted to the entries whose timestamp is at
    least the new timestamp minus the window length, and so every entry of
    the window is at least that cutoff; the invariant holds in every state
    the store reaches. *)
Theorem window_invariant_after_record :
  (forall (st : Store T) (row : Reading T),
      let cutoff := ts_minus (ts row) HISTORY_SECONDS in
      last_row (record st row) = Some row /\
      history (record st row)
      = filter (fun r => ts_ge (ts r) cutoff) (history st ++ [row]) /\
      (forall r, In r (history (record st row)) <->
                 In r (history st ++ [row]) /\ ts_ge (ts r) cutoff = true) /\
      Forall (fun r => ts_ge (ts r) cutoff = true) (history (record st row))) /\
  (forall rows : list (Reading T), window_invariant (record_all empty_store rows)).
Proof.
  split.
  - intros st row cutoff. split; [reflexivity |]. split; [reflexivity |]. split.
    + intros r. rewrite history_record. unfold in_window.
      fold cutoff. apply filter_In.
    + apply (Forall_filter_true (in_window row)).
  - intros rows. destruct rows as [| row rows] using rev_ind.
    + reflexivity.
    + rewrite record_all_snoc. apply window_invariant_record.
Qed.

Lemma last_row_record_all (st : Store T) (rows : list (Reading T)) :
  last_row (record_all st rows)
  = match last_opt rows with Some row => Some row | None => last_row st end.
Proof.
  destruct rows as [| row rows] using rev_ind.
  - reflexivity.
  - rewrite record_all_snoc, last_opt_snoc. reflexivity.
Qed.

(** C3: a record call whose reading is not before its own cutoff leaves a
    non-empty window whose last element is the latest reading; the latest
    reading after any sequence of record calls is the last reading
    recorded, and it is empty only when nothing was recorded. *)
Theorem latest_is_last_of_window :
  (forall (st : Store T) (row : Reading T),
      ts_ge (ts row) (ts_minus (ts row) HISTORY_SECONDS) = true ->
      snapshot_latest (record st row) = Some row /\
      last_opt (snapshot_history (record st row)) = Some row /\
      snapshot_history (record st row) <> []) /\
  (forall (st : Store T) (rows : list (Reading T)) (row : Reading T),
      snapshot_latest (record_all st (rows ++ [row])) = Some row) /\
  (forall rows : list (Reading T),
      snapshot_latest (record_all empty_store rows) = last_opt rows) /\
  (forall rows : list (Reading T),
      snapshot_latest (record_all empty_store rows) = None <-> rows = []).
Proof.
  unfold snapshot_latest, snapshot_history.
  split; [| split; [| split]].
  - intros st row Hrow.
    assert (E : history (record st row) = filter (in_window row) (history st) ++ [row]).
    { rewrite history_record, filter_app. simpl. unfold in_window at 2.
      rewrite Hrow. reflexivity. }
    rewrite E. split; [reflexivity |]. split.
    + apply last_opt_snoc.
    + intros E'. apply app_eq_nil in E'. destruct E'; discriminate.
  - intros st rows row. rewrite record_all_snoc. reflexivity.
  - intros rows. rewrite last_row_record_all. now destruct (last_opt rows).
  - intros rows. rewrite last_row_record_all. split.
    + destruct rows as [| row rows _] using rev_ind; [reflexivity |].
      rewrite last_opt_snoc. discriminate.
    + intros ->. reflexivity.
Qed.

End WindowInvariant.

(** A reading stamped by the clock of a running host. *)
Lemma latest_is_last_of_window_witness :
  ts_ge (ts (reading_at 1700000000.5%float))
        (ts_minus (ts (reading_at 1700000000.5%float)) HISTORY_SECONDS) = true /\
  snapshot_latest
    (record (record_all empty_store (map reading_at [1699999000; 1699999999]%float))
       (reading_at 1700000000.5%float))
  = Some (reading_at 1700000000.5%float) /\
  last_opt
    (snapshot_history
       (record (record_all empty_store (map reading_at [1699999000; 1699999999]%float))
          (reading_at 1700000000.5%float)))
  = Some (reading_at 1700000000.5%float) /\
  snapshot_history
    (record (record_all empty_store (map reading_at [1699999000; 1699999999]%float))
       (reading_at 1700000000.5%float)) <> [].
Proof.
  split.
  - vm_compute. reflexivity.
  - apply (proj1 (@latest_is_last_of_window float float_timestamp)).
    vm_compute. reflexivity.
Defined.

(** ** Eviction *)

(** C5 as stated fails: after readings at 1000 and 500, a reading at 1450
    evicts the one at 500 from the middle of the window, so the window that
    results is not a suffix of the previous window with the new reading
    appended. *)
Lemma eviction_not_a_prefix_trim :
  ~ suffix_of
      (snapshot_history
         (record (record_all empty_store (map reading_at [1000; 500]%float))
            (reading_at 1450%float)))
      (snapshot_history (record_all empty_store (map reading_at [1000; 500]%float))
         ++ [reading_at 1450%float]).
Proof.
  intros [pre Hpre]. vm_compute in Hpre.
  destruct pre as [| a [| b pre]].
  - apply (f_equal (@List.length _)) in Hpre. discriminate.
  - apply (f_equal (fun l => match l with
                             | _ :: r :: _ => (ts r =? 500)%float
                             | _ => true
                             end)) in Hpre.
    vm_compute in Hpre. discriminate.
  - apply (f_equal (@List.length _)) in Hpre. simpl in Hpre.
    rewrite length_app in Hpre. simpl in Hpre. lia.
Qed.

Section Eviction.
Context {T : Type} `{Timestamp T}.
Variable isoformat : T -> result string.

Lemma store_emit (e : event T) (w : World T) : store (emit e w) = store w.
Proof. reflexivity. Qed.

Lemma store_append_to_csv (io : CsvIO) (row : Reading T) (w : World T) :
  store (append_to_csv isoformat io row w) = store w.
Proof.
  unfold append_to_csv.
  destruct (write_row isoformat io _ (log_file w) row) as [file [u | e]];
    reflexivity.
Qed.

Lemma store_sensor_loop_body (tick : Tick T) (w : World T) :
  store (sensor_loop_body isoformat tick w)
  = match read_sensors_once (sensors tick) with
    | Ok row => record (store w) row
    | Raise _ => store w
    end.
Proof.
  unfold sensor_loop_body.
  destruct (read_sensors_once (sensors tick)) as [row | e].
  - rewrite !store_emit, store_append_to_csv. reflexivity.
  - reflexivity.
Qed.

Hypothesis ge_trans :
  forall a b c : T, ts_ge a b = true -> ts_ge b c = true -> ts_ge a c = true.

Lemma nondecreasing_tail_ge (a : Reading T) (l : list (Reading T)) :
  nondecreasing (a :: l) -> forall r, In r l -> ts_ge (ts r) (ts a) = true.
Proof.
  revert a. induction l as [| b l IH]; intros a Hnd r Hr; [destruct Hr |].
  destruct Hnd as [Hab Hrest]. destruct Hr as [<- | Hr]; [exact Hab |].
  exact (ge_trans _ _ _ (IH b Hrest r Hr) Hab).
Qed.

(** On timestamps that never go back, a cutoff drops a prefix. *)
Lemma filter_cutoff_suffix (cutoff : T) (l : list (Reading T)) :
  nondecreasing l ->
  exists pre,
    l = pre ++ filter (fun r => ts_ge (ts r) cutoff) l /\
    Forall (fun r => ts_ge (ts r) cutoff = false) pre.
Proof.
  induction l as [| a l IH]; intros Hnd.
  - exists []. split; [reflexivity | constructor].
  - simpl. destruct (ts_ge (ts a) cutoff) eqn:Ea.
    + exists []. split; [| constructor]. simpl. f_equal. symmetry.
      apply filter_all_true. intros r Hr.
      exact (ge_trans _ _ _ (nondecreasing_tail_ge a l Hnd r Hr) Ea).
    + destruct (IH (proj2 Hnd)) as [pre [Hl Hpre]].
      exists (a :: pre). split.
      * simpl. f_equal. exact Hl.
      * constructor; assumption.
Qed.

(** C5, amended: a record call keeps, in their order, exactly the entries of
    the previous window followed by the new reading whose timestamp is at
    least the cutoff; when the timestamps of the previous window followed by
    the new reading never go back, what is evicted is a prefix, so the new
    window is a suffix; and within a poll iteration the store changes by a
    record call or not at all. *)
Theorem eviction_keeps_order :
  (forall (st : Store T) (row : Reading T),
      history (record st row)
      = filter (fun r => ts_ge (ts r) (ts_minus (ts row) HISTORY_SECONDS))
          (history st ++ [row])) /\
  (forall (st : Store T) (row : Reading T),
      nondecreasing (history st ++ [row]) ->
      suffix_of (history (record st row)) (history st ++ [row]) /\
      exists pre,
        history st ++ [row] = pre ++ history (record st row) /\
        Forall (fun r => ts_ge (ts r) (ts_minus (ts row) HISTORY_SECONDS) = false)
          pre) /\
  (forall (tick : Tick T) (w : World T),
      store (sensor_loop_body isoformat tick w) = store w \/
      exists row, store (sensor_loop_body isoformat tick w) = record (store w) row).
Proof.
  split; [| split].
  - reflexivity.
  - intros st row Hnd.
    destruct (filter_cutoff_suffix (ts_minus (ts row) HISTORY_SECONDS) _ Hnd)
      as [pre [Hl Hpre]].
    split; exists pre; [exact Hl | split; [exact Hl | exact Hpre]].
  - intros tick w. rewrite store_sensor_loop_body.
    destruct (read_sensors_once (sensors tick)) as [row | e].
    + right. exists row. reflexivity.
    + left. reflexivity.
Qed.

End Eviction.

(** The window of four readings and a fifth, stamped by a float clock. *)
Lemma eviction_keeps_order_witness :
  nondecreasing
    (history (record_all empty_store (map reading_at [0; 300; 600; 900]%float))
       ++ [reading_at 1200%float]) /\
  suffix_of
    (history
       (record (record_all empty_store (map reading_at [0; 300; 600; 900]%float))
          (reading_at 1200%float)))
    (history (record_all empty_store (map reading_at [0; 300; 600; 900]%float))
       ++ [reading_at 1200%float]).
Proof.
  assert (Hnd : nondecreasing
                  (history
                     (record_all empty_store
                        (map reading_at [0; 300; 600; 900]%float))
                     ++ [reading_at 1200%float])).
  { vm_compute. repeat split. }
  split; [exact Hnd |].
  exact (proj1 (proj1 (proj2 (@eviction_keeps_order float float_timestamp
                                (fun _ => Ok "1970-01-01T00:20:00")
                                FloatOrder.float_ge_trans)) _ _ Hnd)).
Defined.

(** ** Rounding to one decimal *)

Lemma round_half_even_nearest (n d : Z) :
  0 < d -> Z.abs (2 * n - 2 * PyFloat.round_half_even n d * d) <= d.
Proof.
  intros Hd. unfold PyFloat.round_half_even.
  pose proof (Z.div_mod n d ltac:(lia)) as Hn.
  pose proof (Z.mod_pos_bound n d Hd) as Hr.
  destruct (Z.compare_spec (2 * (n mod d)) d);
    try destruct (Z.even (n / d)); nia.
Qed.

Lemma round1_one_decimal (x : float) :
  PyFloat.one_decimal_of x (PyFloat.round1 x).
Proof.
  unfold PyFloat.one_decimal_of, PyFloat.round1.
  destruct (Prim2SF x) as [s | s | | s m e]; try reflexivity.
  exists (PyFloat.tenths m e). split; [reflexivity |].
  unfold PyFloat.tenths. destruct e as [| p | p].
  - change (Z.max 0 0) with 0. change (Z.max (- 0) 0) with 0.
    change (2 ^ 0) with 1. lia.
  - rewrite (Z.max_l (Z.pos p) 0), (Z.max_r (- Z.pos p) 0) by lia.
    change (2 ^ 0) with 1. lia.
  - rewrite (Z.max_r (Z.neg p) 0), (Z.max_l (- Z.neg p) 0) by lia.
    change (- Z.neg p) with (Z.pos p). change (2 ^ 0) with 1.
    rewrite Z.mul_1_r. apply round_half_even_nearest.
    apply Z.pow_pos_nonneg; lia.
Qed.

(** ** Sensor reader *)

(** C9: a successful read stores the Celsius value, the Fahrenheit value
    [C * 9 / 5 + 32] computed from the raw Celsius value, and the humidity,
    each rounded to one decimal, and the category of the PM2.5 value; the
    derived Fahrenheit and category depend on the raw values only, so two
    reads of the same values agree on them whatever the time; the raw
    values 22.0, 45.0 and PM2.5 10.0 give 71.6, 45.0, 10.0 and Good. *)
Theorem read_sensors_once_derives :
  (forall (T : Type) (c h : float) (aq : aqdata) (t t' : T),
      exists r r' : Reading T,
        read_sensors_once (mkSensors (Ok c) (Ok h) (Ok aq) t) = Ok r /\
        read_sensors_once (mkSensors (Ok c) (Ok h) (Ok aq) t') = Ok r' /\
        ts r = t /\
        temp_c r = PyFloat.round1 c /\
        temp_f r = PyFloat.round1 (c * 9.0 / 5.0 + 32.0)%float /\
        humidity r = PyFloat.round1 h /\
        PyFloat.one_decimal_of c (temp_c r) /\
        PyFloat.one_decimal_of (c * 9.0 / 5.0 + 32.0)%float (temp_f r) /\
        PyFloat.one_decimal_of h (humidity r) /\
        pm25 r = dict_get "pm25 standard" aq /\
        aqi_category r = aqi_category_from_pm25 (pm25 r) /\
        temp_f r' = temp_f r /\
        aqi_category r' = aqi_category r) /\
  (forall (T : Type) (t : T),
      read_sensors_once
        (mkSensors (Ok 22.0%float) (Ok 45.0%float)
           (Ok [("pm10 standard", 6%float); ("pm25 standard", 10.0%float);
                ("pm100 standard", 12%float)]) t)
      = Ok {| ts := t; temp_c := 22.0; temp_f := 71.6; humidity := 45.0;
              pm1 := Some 6%float; pm25 := Some 10.0%float;
              pm10 := Some 12%float; aqi_category := "Good" |}).
Proof.
  split.
  - intros T c h aq t t'. eexists. eexists.
    split; [reflexivity |]. split; [reflexivity |]. simpl.
    repeat split; apply round1_one_decimal.
  - intros T t. vm_compute. reflexivity.
Qed.

(** ** Poll loop *)

Section PollLoopFacts.
Context {T : Type} `{Timestamp T}.
Variable isoformat : T -> result string.

Lemma sensor_loop_cons (tick : Tick T) (ticks : list (Tick T)) (w : World T) :
  sensor_loop isoformat (tick :: ticks) w
  = sensor_loop isoformat ticks (sensor_loop_body isoformat tick w).
Proof. reflexivity. Qed.

(** The store after any number of iterations: the successful reads,
    recorded in order. *)
Lemma store_sensor_loop (ticks : list (Tick T)) (w : World T) :
  store (sensor_loop isoformat ticks w) = record_all (store w) (readings_of ticks).
Proof.
  revert w. induction ticks as [| tick ticks IH]; intros w; [reflexivity |].
  rewrite sensor_loop_cons, IH, store_sensor_loop_body.
  simpl. unfold record_all. rewrite fold_left_app.
  destruct (read_sensors_once (sensors tick)); reflexivity.
Qed.

Lemma readings_of_nil (ticks : list (Tick T)) :
  readings_of ticks = [] <->
  forall tick, In tick ticks -> exists e, read_sensors_once (sensors tick) = Raise e.
Proof.
  induction ticks as [| tick ticks IH]; simpl.
  - split; [intros _ tick [] | reflexivity].
  - destruct (read_sensors_once (sensors tick)) as [row | e] eqn:E; simpl.
    + split; [discriminate |]. intros Hall.
      destruct (Hall tick (or_introl eq_refl)) as [e He]. congruence.
    + rewrite IH. split.
      * intros Hall t [<- | Ht]; [now exists e | now apply Hall].
      * intros Hall t Ht. apply Hall. now right.
Qed.

Lemma trace_append_to_csv (io : CsvIO) (row : Reading T) (w : World T) :
  trace (append_to_csv isoformat io row w)
  = trace w ++
    [match snd (write_row isoformat io
                  (match log_file w with Some _ => true | None => false end)
                  (log_file w) row) with
     | Ok _ => EvCsvRow row
     | Raise e => EvPrintError "CSV write error:" e
     end].
Proof.
  unfold append_to_csv.
  destruct (write_row isoformat io _ (log_file w) row) as [file [u | e]];
    reflexivity.
Qed.

Lemma sleeps_sensor_loop_body (tick : Tick T) (w : World T) :
  List.length (filter is_sleep (trace (sensor_loop_body isoformat tick w)))
  = S (List.length (filter is_sleep (trace w))).
Proof.
  unfold sensor_loop_body.
  destruct (read_sensors_once (sensors tick)) as [row | e]; simpl;
    rewrite ?trace_append_to_csv; simpl;
    rewrite ?filter_app, ?length_app; simpl.
  - destruct (snd (write_row isoformat (csv_io tick) _ (log_file w) row));
      simpl; lia.
  - lia.
Qed.

(** C8: in an iteration whose sensor read succeeds the history store is
    updated before the session log is written; when the write fails, at
    whatever step of it, the error is printed, the store stays as the
    record call left it and the iteration goes on to its sleep; when the
    sensor read fails the error is printed, store and session file are
    untouched and the iteration goes on to its sleep; so every iteration,
    failed or not, ends in the sleep before the next one. *)
Theorem poll_iteration_survives_failures :
  (forall (tick : Tick T) (w : World T) (row : Reading T),
      read_sensors_once (sensors tick) = Ok row ->
      snd (write_row isoformat (csv_io tick)
             (match log_file w with Some _ => true | None => false end)
             (log_file w) row) = Ok tt ->
      store (sensor_loop_body isoformat tick w) = record (store w) row /\
      trace (sensor_loop_body isoformat tick w)
      = trace w ++ [EvRecord row; EvCsvRow row; EvPrintLogged row;
                    EvSleep READ_INTERVAL_SEC]) /\
  (forall (tick : Tick T) (w : World T) (row : Reading T) (e : string),
      read_sensors_once (sensors tick) = Ok row ->
      snd (write_row isoformat (csv_io tick)
             (match log_file w with Some _ => true | None => false end)
             (log_file w) row) = Raise e ->
      store (sensor_loop_body isoformat tick w) = record (store w) row /\
      trace (sensor_loop_body isoformat tick w)
      = trace w ++ [EvRecord row; EvPrintError "CSV write error:" e;
                    EvPrintLogged row; EvSleep READ_INTERVAL_SEC]) /\
  (forall (tick : Tick T) (w : World T) (e : string),
      read_sensors_once (sensors tick) = Raise e ->
      store (sensor_loop_body isoformat tick w) = store w /\
      log_file (sensor_loop_body isoformat tick w) = log_file w /\
      trace (sensor_loop_body isoformat tick w)
      = trace w ++ [EvPrintError "Sensor read error:" e;
                    EvSleep READ_INTERVAL_SEC]) /\
  (forall (ticks : list (Tick T)) (w : World T),
      List.length (filter is_sleep (trace (sensor_loop isoformat ticks w)))
      = (List.length (filter is_sleep (trace w)) + List.length ticks)%nat).
Proof.
  split; [| split; [| split]].
  - intros tick w row Hread Hcsv.
    rewrite store_sensor_loop_body, Hread. split; [reflexivity |].
    unfold sensor_loop_body. rewrite Hread. simpl.
    rewrite trace_append_to_csv. simpl. rewrite Hcsv.
    rewrite <- !app_assoc. reflexivity.
  - intros tick w row e Hread Hcsv.
    rewrite store_sensor_loop_body, Hread. split; [reflexivity |].
    unfold sensor_loop_body. rewrite Hread. simpl.
    rewrite trace_append_to_csv. simpl. rewrite Hcsv.
    rewrite <- !app_assoc. reflexivity.
  - intros tick w e Hread. unfold sensor_loop_body. rewrite Hread. simpl.
    rewrite <- app_assoc. repeat split.
  - intros ticks. induction ticks as [| tick ticks IH]; intros w.
    + simpl. lia.
    + rewrite sensor_loop_cons, IH, sleeps_sensor_loop_body. simpl. lia.
Qed.

End PollLoopFacts.

(** An iteration that reads the sensors and then finds the disk full. *)
Lemma poll_iteration_survives_failures_witness :
  read_sensors_once
    (sensors (mkTick (sensors_at 1700000000%float)
                (mkCsvIO None None (Some "No space left on device"))))
  = Ok (reading_at 1700000000%float) /\
  store
    (sensor_loop_body (fun _ => Ok "2023-11-14T22:13:20")
       (mkTick (sensors_at 1700000000%float)
          (mkCsvIO None None (Some "No space left on device")))
       initial_world)
  = record (store initial_world) (reading_at 1700000000%float) /\
  trace
    (sensor_loop_body (fun _ => Ok "2023-11-14T22:13:20")
       (mkTick (sensors_at 1700000000%float)
          (mkCsvIO None None (Some "No space left on device")))
       initial_world)
  = trace initial_world ++
    [EvRecord (reading_at 1700000000%float);
     EvPrintError "CSV write error:" "No space left on device";
     EvPrintLogged (reading_at 1700000000%float);
     EvSleep READ_INTERVAL_SEC].
Proof.
  assert (Hread : read_sensors_once
                    (sensors (mkTick (sensors_at 1700000000%float)
                                (mkCsvIO None None
                                   (Some "No space left on device"))))
                  = Ok (reading_at 1700000000%float)).
  { vm_compute. reflexivity. }
  split; [exact Hread |].
  apply (proj1 (proj2 (@poll_iteration_survives_failures float float_timestamp
                         (fun _ => Ok "2023-11-14T22:13:20")))
           _ _ _ "No space left on device" Hread).
  reflexivity.
Defined.

(** The first iteration of a healthy host: the header and the row are
    written after the record call. *)
Example first_iteration :
  sensor_loop (fun _ => Ok "2023-11-14T22:13:20")
    [mkTick (sensors_at 1700000000%float) (mkCsvIO None None None)]
    initial_world
  = {| store := {| history := [reading_at 1700000000%float];
                   last_row := Some (reading_at 1700000000%float) |};
       log_file :=
         Some [Header csv_fieldnames;
               Line "2023-11-14T22:13:20" 22.0 71.6 45.0
                 (Some 6%float) (Some 10%float) (Some 12%float) "Good"];
       trace := [EvRecord (reading_at 1700000000%float);
                 EvCsvRow (reading_at 1700000000%float);
                 EvPrintLogged (reading_at 1700000000%float);
                 EvSleep READ_INTERVAL_SEC] |}.
Proof. vm_compute. reflexivity. Qed.

(** ** HTTP service *)

Section HttpFacts.
Context {T : Type} `{Timestamp T}.
Variable isoformat : T -> result string.

Lemma api_data_of_store (st : Store T) (sysinfo : SystemInfo) :
  api_data st sysinfo
  = match last_row st with
    | Some row => (JData true row sysinfo, 200)
    | None => (JError false "No data yet", 503)
    end.
Proof.
  unfold api_data, snapshot_latest.
  destruct (last_row st) as [row |]; [| reflexivity].
  destruct row; reflexivity.
Qed.

(** C7: whatever the poll loop has met so far, [/api/data] answers 503 with
    ok false and the error "No data yet" exactly when no sensor read has
    succeeded; otherwise it answers 200 with ok true, the reading of the last
    successful read, all its fields unchanged, and the system information. *)
Theorem api_data_503_iff_no_reading (ticks : list (Tick T)) (sysinfo : SystemInfo) :
  (api_data (store (sensor_loop isoformat ticks initial_world)) sysinfo
   = (JError false "No data yet", 503)
   <-> forall tick, In tick ticks ->
                    exists e, read_sensors_once (sensors tick) = Raise e) /\
  api_data (store (sensor_loop isoformat ticks initial_world)) sysinfo
  = match last_opt (readings_of ticks) with
    | Some row => (JData true row sysinfo, 200)
    | None => (JError false "No data yet", 503)
    end.
Proof.
  rewrite store_sensor_loop, api_data_of_store.
  change (store initial_world) with (@empty_store T).
  rewrite last_row_record_all. simpl.
  rewrite <- readings_of_nil.
  destruct (readings_of ticks) as [| row rows _] using rev_ind.
  - simpl. tauto.
  - rewrite last_opt_snoc. split; [| reflexivity].
    split; [discriminate |].
    intros E. apply app_eq_nil in E. destruct E; discriminate.
Qed.

(** C10: [/api/history] answers 200 with ok true and the whole current
    window, in order, in every state of the store: the empty list before
    the first reading, the window of the recorded readings afterwards. *)
Theorem api_history_never_fails :
  (forall st : Store T, api_history st = (JPoints true (history st), 200)) /\
  api_history (@empty_store T) = (JPoints true [], 200) /\
  (forall ticks : list (Tick T),
      api_history (store (sensor_loop isoformat ticks initial_world))
      = (JPoints true (history (record_all empty_store (readings_of ticks))), 200)).
Proof.
  split; [| split].
  - reflexivity.
  - reflexivity.
  - intros ticks. rewrite store_sensor_loop. reflexivity.
Qed.

End HttpFacts.

(** ** Threads *)

Section ThreadFacts.
Import Threads.
Context {T : Type} `{Timestamp T}.
Variable st : Store T.
Variable row : Reading T.

Lemma nth_error_update {A : Type} (l : list A) (i j : nat) (a b : A) :
  nth_error l i = Some b ->
  nth_error (update l i a) j = if Nat.eqb j i then Some a else nth_error l j.
Proof.
  revert i j. induction l as [| x l IH]; intros [| i] [| j] Hi;
    simpl in *; try discriminate; try reflexivity.
  now apply IH.
Qed.

Lemma invariant_start (routes : list route) : invariant st row (start st routes).
Proof.
  constructor; simpl.
  - reflexivity.
  - split; discriminate.
  - intros i rt pc Hi. apply nth_error_In, in_map_iff in Hi.
    destruct Hi as [rt' [E _]]. injection E as -> <-. simpl.
    split; [split |]; discriminate.
Qed.

Lemma invariant_poller_step (c : config T) :
  invariant st row c -> invariant st row (poller_step row c).
Proof.
  intros [Hmem Hpol Hhs]. unfold poller_step.
  destruct (poller c) eqn:Epc; simpl in *.
  - destruct (lock c) as [t |] eqn:El.
    + constructor; rewrite ?Epc, ?El; simpl; assumption.
    + constructor; simpl.
      * exact Hmem.
      * tauto.
      * intros i rt pc Hi. destruct (Hhs i rt pc Hi) as [Hin Hseen].
        split; [| exact Hseen]. split; [| discriminate].
        intros Hpc. apply Hin in Hpc. discriminate.
  - constructor; simpl.
    + rewrite Hmem. reflexivity.
    + exact Hpol.
    + exact Hhs.
  - constructor; simpl.
    + rewrite Hmem. reflexivity.
    + exact Hpol.
    + exact Hhs.
  - constructor; simpl.
    + rewrite Hmem. reflexivity.
    + exact Hpol.
    + exact Hhs.
  - assert (El : lock c = Some Poller) by now apply Hpol.
    constructor; simpl.
    + exact Hmem.
    + split; discriminate.
    + intros i rt pc Hi. destruct (Hhs i rt pc Hi) as [Hin Hseen].
      split; [| exact Hseen]. split; [| discriminate].
      intros Hpc. apply Hin in Hpc. congruence.
  - constructor; rewrite ?Epc; simpl; assumption.
Qed.

Lemma invariant_handler_step (i : nat) (c : config T) :
  invariant st row c -> invariant st row (handler_step i c).
Proof.
  intros Hinv. pose proof Hinv as [Hmem Hpol Hhs]. unfold handler_step.
  destruct (nth_error (handlers c) i) as [[rt pc] |] eqn:Ei; [| exact Hinv].
  destruct (Hhs i rt pc Ei) as [Hin Hseen].
  destruct pc as [| | seen | seen]; simpl in *.
  - destruct (lock c) as [t |] eqn:El; [exact Hinv |].
    constructor; simpl.
    + exact Hmem.
    + split; [| discriminate]. intros Hp. apply Hpol in Hp. discriminate.
    + intros j rt' pc' Hj. rewrite (nth_error_update _ _ _ _ _ Ei) in Hj.
      destruct (Nat.eqb_spec j i) as [-> | Hne].
      * injection Hj as <- <-. simpl. split; [tauto | discriminate].
      * destruct (Hhs j rt' pc' Hj) as [Hin' Hseen'].
        split; [| exact Hseen']. split.
        -- intros Hp. apply Hin' in Hp. discriminate.
        -- intros E. injection E as E. congruence.
  - assert (El : lock c = Some (Handler i)) by now apply Hin.
    assert (Hnp : poller_in (poller c) = false).
    { destruct (poller_in (poller c)); [| reflexivity].
      pose proof (proj1 Hpol eq_refl). congruence. }
    constructor; simpl.
    + exact Hmem.
    + exact Hpol.
    + intros j rt' pc' Hj. rewrite (nth_error_update _ _ _ _ _ Ei) in Hj.
      destruct (Nat.eqb_spec j i) as [-> | Hne].
      * injection Hj as <- <-. simpl. split; [tauto |].
        intros seen E. injection E as <-. rewrite Hmem.
        destruct (poller c); simpl in *; try discriminate; auto.
      * exact (Hhs j rt' pc' Hj).
  - assert (El : lock c = Some (Handler i)) by now apply Hin.
    constructor; simpl.
    + exact Hmem.
    + split; [| discriminate]. intros Hp. apply Hpol in Hp. congruence.
    + intros j rt' pc' Hj. rewrite (nth_error_update _ _ _ _ _ Ei) in Hj.
      destruct (Nat.eqb_spec j i) as [-> | Hne].
      * injection Hj as <- <-. simpl. split; [split; discriminate |].
        exact Hseen.
      * destruct (Hhs j rt' pc' Hj) as [Hin' Hseen'].
        split; [| exact Hseen']. split; [| discriminate].
        intros Hp. apply Hin' in Hp. rewrite El in Hp.
        injection Hp as E. congruence.
  - exact Hinv.
Qed.

Lemma invariant_run (sched : list thread) (c : config T) :
  invariant st row c -> invariant st row (run row sched c).
Proof.
  revert c. induction sched as [| t sched IH]; intros c Hinv; [exact Hinv |].
  simpl. apply IH. destruct t as [| i]; simpl.
  - now apply invariant_poller_step.
  - now apply invariant_handler_step.
Qed.

End ThreadFacts.

Section Atomicity.
Import Threads.
Context {T : Type} `{Timestamp T}.

(** C6: while one record call is in flight, under every schedule of the poll
    loop and of any number of request handlers, what a handler has copied is
    the latest reading, or the window, of the store as it was before the
    call or as the call leaves it; a thread reads or writes the history or
    the latest reading only while it holds the lock; and whenever the poll
    loop does not hold the lock, history and latest reading together are the
    state before the call or the state after it. *)
Theorem snapshots_see_whole_states
    (st : Store T) (row : Reading T) (routes : list route) (sched : list thread) :
  (forall i rt pc seen,
      nth_error (handlers (run row sched (start st routes))) i = Some (rt, pc) ->
      observed pc = Some seen ->
      seen = read rt st \/ seen = read rt (record st row)) /\
  (forall t,
      accesses t (run row sched (start st routes)) = true ->
      lock (run row sched (start st routes)) = Some t) /\
  (lock (run row sched (start st routes)) <> Some Poller ->
   mem (run row sched (start st routes)) = st \/
   mem (run row sched (start st routes)) = record st row).
Proof.
  pose proof (invariant_run st row sched _ (invariant_start st row routes))
    as [Hmem Hpol Hhs].
  split; [| split].
  - intros i rt pc seen Hi Hseen. exact (proj2 (Hhs i rt pc Hi) seen Hseen).
  - intros [| i] Hacc; simpl in Hacc.
    + apply Hpol.
      destruct (poller (run row sched (start st routes))); try discriminate;
        reflexivity.
    + destruct (nth_error (handlers (run row sched (start st routes))) i)
        as [[rt pc] |] eqn:Ei; [| discriminate].
      apply (proj1 (Hhs i rt pc Ei)).
      destruct pc; try discriminate; reflexivity.
  - intros Hl. rewrite Hmem.
    destruct (poller (run row sched (start st routes))); simpl in *; auto;
      exfalso; apply Hl; apply Hpol; reflexivity.
Qed.

End Atomicity.

(** A history request that arrives while the record call holds the lock
    waits and then sees the new window; a data request served before the
    call sees the old latest reading. *)
Example interleaving_run :
  map snd
    (Threads.handlers
       (Threads.run (reading_at 1200)
          [Threads.Handler 1; Threads.Handler 1; Threads.Poller;
           Threads.Handler 1; Threads.Poller; Threads.Handler 0;
           Threads.Poller; Threads.Poller; Threads.Handler 0;
           Threads.Poller; Threads.Poller; Threads.Handler 0;
           Threads.Handler 0; Threads.Handler 0]
          (Threads.start
             (record_all empty_store (map reading_at [0; 300; 600; 900]))
             [Threads.ApiHistory; Threads.ApiData])))
  = [Threads.HDone (Threads.Points (map reading_at [300; 600; 900; 1200]));
     Threads.HDone (Threads.Latest (Some (reading_at 900)))].
Proof. vm_compute. reflexivity. Qed.

(** * Further properties *)

(** ** Ranges of integers *)

Lemma in_range (lo : Z) (n : nat) (z : Z) :
  lo <= z < lo + Z.of_nat n -> In z (range lo n).
Proof.
  revert lo. induction n as [| n IH]; intros lo Hz; [lia |].
  simpl. destruct (Z.eq_dec lo z) as [-> | Hne]; [now left | right].
  apply IH. lia.
Qed.

Lemma forallb_range (f : Z -> bool) (lo : Z) (n : nat) :
  forallb f (range lo n) = true ->
  forall z, lo <= z < lo + Z.of_nat n -> f z = true.
Proof.
  intros Hall z Hz. rewrite forallb_forall in Hall. apply Hall.
  now apply in_range.
Qed.


(** ** Uptime *)

Lemma split_colon_app (a b : string) :
  no_colon a -> split_colon (a ++ String ":" b) = Some (a, b).
Proof.
  induction a as [| c a IH]; intros Ha; simpl.
  - reflexivity.
  - destruct (Ascii.eqb_spec c ":") as [-> | Hc].
    + exfalso. apply (Ha ":"%char); [now left | reflexivity].
    + rewrite IH; [reflexivity |]. intros d Hd. apply Ha. now right.
Qed.

Lemma no_colon_cons (c : ascii) (s : string) :
  c <> ":"%char -> no_colon s -> no_colon (String c s).
Proof. intros Hc Hs d [<- | Hd]; [exact Hc | now apply Hs]. Qed.

Lemma no_colon_uint (d : Decimal.uint) : no_colon (NilEmpty.string_of_uint d).
Proof.
  induction d; simpl; try (apply no_colon_cons; [discriminate | assumption]).
  intros c [].
Qed.

Lemma no_colon_nzuint (d : Decimal.uint) : no_colon (NilZero.string_of_uint d).
Proof.
  destruct d; try apply (no_colon_uint (_ d)).
  apply no_colon_cons; [discriminate | intros c []].
Qed.

Lemma no_colon_decimal (n : Z) : no_colon (decimal n).
Proof.
  unfold decimal. destruct (Z.to_int n) as [d | d]; simpl.
  - apply no_colon_nzuint.
  - apply no_colon_cons; [discriminate | apply no_colon_nzuint].
Qed.

Lemma no_colon_format_02d (n : Z) : no_colon (format_02d n).
Proof.
  unfold format_02d. destruct (String.length (decimal n) <? 2)%nat.
  - apply no_colon_cons; [discriminate | apply no_colon_decimal].
  - apply no_colon_decimal.
Qed.

Lemma to_int_proper (n : Z) :
  Z.to_int n <> Decimal.Pos Decimal.Nil /\ Z.to_int n <> Decimal.Neg Decimal.Nil.
Proof.
  destruct n as [| p | p]; simpl; split; try discriminate;
    intros E; injection E as E; exact (DecimalPos.Unsigned.to_uint_nonnil p E).
Qed.

Lemma parse_field_decimal (n : Z) : parse_field (decimal n) = Some n.
Proof.
  unfold parse_field, decimal. destruct (to_int_proper n) as [Hp Hn].
  rewrite (NilZero.isi _ Hp Hn). simpl. now rewrite DecimalZ.of_to.
Qed.

Lemma parse_field_format_02d (n : Z) : parse_field (format_02d n) = Some n.
Proof.
  unfold format_02d. destruct (String.length (decimal n) <? 2)%nat eqn:El;
    [| apply parse_field_decimal].
  pose proof (parse_field_decimal n) as Hd. unfold parse_field in *.
  destruct (decimal n) as [| c s] eqn:Es; [discriminate |].
  unfold NilZero.int_of_string in *.
  destruct (Ascii.eqb_spec c "-") as [-> | Hc].
  - (* a sign and fewer than two characters: no digit, not a number *)
    destruct s; [discriminate Hd | discriminate El].
  - change (("0" ++ String c s)%string) with (String "0" (String c s)).
    change (Ascii.eqb "0" "-") with false. cbv iota.
    unfold NilZero.uint_of_string in *.
    change (NilEmpty.uint_of_string (String "0" (String c s)))
      with (match NilEmpty.uint_of_string (String c s) with
            | Some d => Some (Decimal.D0 d) | None => None end).
    destruct (NilEmpty.uint_of_string (String c s)) as [d |]; [| discriminate].
    simpl in *. exact Hd.
Qed.

(** X1: the text that [format_uptime] makes of a number of seconds, negative
    ones included, reads back as that number, and the text for an
    unavailable uptime reads back as nothing: different uptimes are never
    shown alike. *)
Theorem format_uptime_round_trip :
  (forall n : Z, parse_uptime (format_uptime (Some n)) = Some n) /\
  parse_uptime (format_uptime None) = None.
Proof.
  split; [| reflexivity].
  intros n. unfold format_uptime.
  pose proof (Z.div_eucl_eq n 60 ltac:(lia)) as H1.
  destruct (Z.div_eucl n 60) as [m s].
  pose proof (Z.div_eucl_eq m 60 ltac:(lia)) as H2.
  destruct (Z.div_eucl m 60) as [h m'].
  unfold parse_uptime.
  change (format_02d h ++ ":" ++ format_02d m' ++ ":" ++ format_02d s)%string
    with (format_02d h ++ String ":" (format_02d m' ++ String ":" (format_02d s)))%string.
  rewrite (split_colon_app _ _ (no_colon_format_02d h)).
  rewrite (split_colon_app _ _ (no_colon_format_02d m')).
  rewrite !parse_field_format_02d. f_equal. lia.
Qed.

Lemma length_format_02d_small (k : Z) :
  0 <= k < 100 -> String.length (format_02d k) = 2%nat.
Proof.
  intros Hk.
  apply Nat.eqb_eq.
  apply (forallb_range (fun k => Nat.eqb (String.length (format_02d k)) 2) 0 100);
    [vm_compute; reflexivity | lia].
Qed.

Lemma length_uint_large (u : Decimal.uint) :
  (100 <= Pos.of_uint u)%N -> (3 <= String.length (NilEmpty.string_of_uint u))%nat.
Proof.
  intros Hu.
  destruct u as [| u | u | u | u | u | u | u | u | u | u];
    try (vm_compute in Hu; congruence).
  all: destruct u as [| u | u | u | u | u | u | u | u | u | u];
    try (vm_compute in Hu; congruence).
  all: destruct u as [| u | u | u | u | u | u | u | u | u | u];
    try (vm_compute in Hu; congruence); simpl; lia.
Qed.

Lemma length_string_app (a b : string) :
  String.length (a ++ b)%string = (String.length a + String.length b)%nat.
Proof. induction a as [| c a IH]; simpl; [reflexivity | now rewrite IH]. Qed.

Lemma length_format_02d_large (k : Z) :
  100 <= k -> (3 <= String.length (format_02d k))%nat.
Proof.
  intros Hk. unfold format_02d.
  assert (Hd : (3 <= String.length (decimal k))%nat).
  { unfold decimal. destruct k as [| p | p]; try lia. simpl.
    pose proof (DecimalPos.Unsigned.of_to p) as Hp.
    pose proof (DecimalPos.Unsigned.to_uint_nonnil p) as Hn.
    assert (Hu : (100 <= Pos.of_uint (Pos.to_uint p))%N) by (rewrite Hp; lia).
    apply length_uint_large in Hu.
    destruct (Pos.to_uint p); [congruence | exact Hu ..]. }
  destruct (String.length (decimal k) <? 2)%nat eqn:E; [| exact Hd].
  apply Nat.ltb_lt in E. lia.
Qed.

Example format_uptime_examples :
  map format_uptime [None; Some 0; Some 3661; Some 359999; Some 360000; Some (-1)]
  = ["N/A"; "00:00:00"; "01:01:01"; "99:59:59"; "100:00:00"; "-1:59:59"].
Proof. vm_compute. reflexivity. Qed.

(** X2: the text is hours, minutes and seconds that add up to the input;
    minutes and seconds are two digits between 00 and 59, for a negative
    input too; the hours take the digits they need, so the text has eight
    characters below a hundred hours and more from there on. *)
Theorem format_uptime_fields (n : Z) :
  exists h m s : Z,
    format_uptime (Some n)
    = (format_02d h ++ ":" ++ format_02d m ++ ":" ++ format_02d s)%string /\
    n = 3600 * h + 60 * m + s /\
    0 <= m < 60 /\ 0 <= s < 60 /\
    String.length (format_02d m) = 2%nat /\
    String.length (format_02d s) = 2%nat /\
    (0 <= n < 360000 -> String.length (format_uptime (Some n)) = 8%nat) /\
    (360000 <= n -> (8 < String.length (format_uptime (Some n)))%nat).
Proof.
  unfold format_uptime.
  pose proof (Z.div_eucl_eq n 60 ltac:(lia)) as H1.
  pose proof (Z.mod_pos_bound n 60 ltac:(lia)) as B1. unfold Z.modulo in B1.
  destruct (Z.div_eucl n 60) as [m0 s].
  pose proof (Z.div_eucl_eq m0 60 ltac:(lia)) as H2.
  pose proof (Z.mod_pos_bound m0 60 ltac:(lia)) as B2. unfold Z.modulo in B2.
  destruct (Z.div_eucl m0 60) as [h m].
  exists h, m, s.
  pose proof (length_format_02d_small m ltac:(lia)) as Lm.
  pose proof (length_format_02d_small s ltac:(lia)) as Ls.
  repeat split; try lia; try assumption.
  - intros Hn. rewrite !length_string_app, Lm, Ls.
    rewrite (length_format_02d_small h) by lia. reflexivity.
  - intros Hn. rewrite !length_string_app, Lm, Ls.
    pose proof (length_format_02d_large h ltac:(lia)). simpl. lia.
Qed.

(** ** CPU temperature *)

Lemma tenths_fast_eq (m : positive) (e : Z) : tenths_fast m e = PyFloat.tenths m e.
Proof.
  unfold tenths_fast, PyFloat.tenths, PyFloat.round_half_even.
  destruct e as [| p | p]; try reflexivity.
  rewrite Z.shiftr_div_pow2, Z.land_ones, Z.shiftl_1_l by lia.
  reflexivity.
Qed.

Lemma cpu_tenths_sound (milli q : Z) (s : bool) :
  cpu_tenths milli = Some (s, q) ->
  get_cpu_temp_f (Ok milli) = Some (PyFloat.of_tenths s q).
Proof.
  unfold cpu_tenths, get_cpu_temp_f. simpl.
  destruct (float_of_int milli) as [x | e]; [| discriminate]. simpl.
  unfold PyFloat.round1.
  destruct (Prim2SF (x / 1000.0 * 9.0 / 5.0 + 32.0)%float) as [s' | s' | | s' m e];
    try discriminate.
  rewrite tenths_fast_eq. intros E. injection E as <- <-. reflexivity.
Qed.

Lemma cpu_temp_range :
  forallb cpu_check (range 0 (Z.to_nat 100001)) = true.
Proof. vm_compute. reflexivity. Qed.

(** X3: for every thermal reading from 0 to 100000 millidegrees the CPU
    temperature is available and is the float nearest to a number of
    tenths that is within half a tenth of the exact value
    [milli * 9 / 5000 + 32] (the inequality is multiplied by 500). *)
Theorem cpu_temp_accuracy (milli : Z) :
  0 <= milli <= 100000 ->
  exists (s : bool) (q : Z),
    get_cpu_temp_f (Ok milli) = Some (PyFloat.of_tenths s q) /\
    Z.abs (9 * milli + 160000 - 500 * (if s then - q else q)) <= 250.
Proof.
  intros Hm.
  pose proof (forallb_range cpu_check 0 _ cpu_temp_range milli ltac:(lia)) as Hc.
  unfold cpu_check in Hc.
  destruct (cpu_tenths milli) as [[s q] |] eqn:Eq; [| discriminate].
  exists s, q. split; [now apply cpu_tenths_sound | lia].
Qed.

(** The thermal zone of an idle board. *)
Lemma cpu_temp_accuracy_witness :
  0 <= 45622 <= 100000 /\
  exists (s : bool) (q : Z),
    get_cpu_temp_f (Ok 45622) = Some (PyFloat.of_tenths s q) /\
    Z.abs (9 * 45622 + 160000 - 500 * (if s then - q else q)) <= 250.
Proof.
  split; [lia |]. apply (cpu_temp_accuracy 45622). lia.
Defined.

Example cpu_temp_idle : get_cpu_temp_f (Ok 45622) = Some 114.1%float.
Proof. vm_compute. reflexivity. Qed.

(** ** Dashboard script *)

(** X4: the class that the dashboard gives to the category of a PM2.5 value
    is the one of its breakpoint row: each category has a class of its own,
    the sensitive-groups category is not taken for the plain unhealthy one,
    and an absent value has no class. *)
Theorem aqiClass_of_category (p : option float) :
  aqiClass (Some (aqi_category_from_pm25 p))
  = match p with
    | None => ""
    | Some v =>
        if (v <=? 12.0)%float then "aq-good"
        else if (v <=? 35.4)%float then "aq-moderate"
        else if (v <=? 55.4)%float then "aq-unhealthy-sg"
        else if (v <=? 150.4)%float then "aq-unhealthy"
        else if (v <=? 250.4)%float then "aq-very-unhealthy"
        else "aq-hazardous"
    end.
Proof.
  destruct p as [v |]; [| reflexivity].
  unfold aqi_category_from_pm25.
  repeat match goal with
         | |- context [if ?b then _ else _] => destruct b
         end; reflexivity.
Qed.

(** ** Sensor reader: keys and errors *)

Lemma dict_get_none (key : string) (d : aqdata) :
  dict_get key d = None <-> ~ In key (map fst d).
Proof.
  induction d as [| [k v] d IH]; simpl.
  - tauto.
  - destruct (String.eqb_spec k key) as [-> | Hne].
    + split; [discriminate | intros Hn; exfalso; apply Hn; now left].
    + rewrite IH. split.
      * intros Hn [E | Hin]; [exact (Hne E) | exact (Hn Hin)].
      * intros Hn Hin. apply Hn. now right.
Qed.

Lemma aqi_category_unknown (p : option float) :
  aqi_category_from_pm25 p = "Unknown" <-> p = None.
Proof.
  split; [| intros ->; reflexivity].
  destruct p as [v |]; [| reflexivity]. simpl.
  repeat match goal with
         | |- context [if ?b then _ else _] => destruct b
         end; discriminate.
Qed.

(** X5: a sensor dict that lacks a key does not fail the read: the field is
    left empty exactly when its key is missing ([pm1] reads the key
    [pm10 standard], [pm10] the key [pm100 standard]), and the category is
    Unknown exactly when the key [pm25 standard] is missing. *)
Theorem read_sensors_once_missing_keys
    (T : Type) (c h : float) (aq : aqdata) (t : T) :
  exists r : Reading T,
    read_sensors_once (mkSensors (Ok c) (Ok h) (Ok aq) t) = Ok r /\
    (pm1 r = None <-> ~ In "pm10 standard" (map fst aq)) /\
    (pm25 r = None <-> ~ In "pm25 standard" (map fst aq)) /\
    (pm10 r = None <-> ~ In "pm100 standard" (map fst aq)) /\
    (aqi_category r = "Unknown" <-> ~ In "pm25 standard" (map fst aq)).
Proof.
  eexists. split; [reflexivity |]. simpl.
  rewrite aqi_category_unknown. rewrite !dict_get_none. tauto.
Qed.

(** X6: a read gives a reading exactly when the temperature, the humidity
    and the particulate accesses all succeed; otherwise it raises the error
    of the first access that failed, in that order. *)
Theorem read_sensors_once_errors (T : Type) (hw : Sensors T) :
  ((exists r, read_sensors_once hw = Ok r) <->
   (exists c h aq,
       aht_temperature hw = Ok c /\ aht_relative_humidity hw = Ok h /\
       pm25_read hw = Ok aq)) /\
  (forall e,
      read_sensors_once hw = Raise e <->
      aht_temperature hw = Raise e \/
      ((exists c, aht_temperature hw = Ok c) /\
       aht_relative_humidity hw = Raise e) \/
      ((exists c, aht_temperature hw = Ok c) /\
       (exists h, aht_relative_humidity hw = Ok h) /\
       pm25_read hw = Raise e)).
Proof.
  unfold read_sensors_once.
  destruct (aht_temperature hw) as [c | e1]; simpl;
    [destruct (aht_relative_humidity hw) as [h | e2]; simpl;
     [destruct (pm25_read hw) as [aq | e3]; simpl |] |].
  - split.
    + split; [intros _; now exists c, h, aq | intros _; eexists; reflexivity].
    + intros e. split; [discriminate |].
      intros [E | [[_ E] | [_ [_ E]]]]; discriminate.
  - split.
    + split; [intros [r E]; discriminate | intros [c' [h' [aq' [_ [_ E]]]]]; discriminate].
    + intros e. split.
      * intros E. injection E as ->. right. right.
        split; [now exists c |]. split; [now exists h | reflexivity].
      * intros [E | [[_ E] | [_ [_ E]]]]; try discriminate. congruence.
  - split.
    + split; [intros [r E]; discriminate | intros [c' [h' [aq' [_ [E _]]]]]; discriminate].
    + intros e. split.
      * intros E. injection E as ->. right. left. split; [now exists c | reflexivity].
      * intros [E | [[_ E] | [_ [[h' E] _]]]]; try discriminate. congruence.
  - split.
    + split; [intros [r E]; discriminate | intros [c' [h' [aq' [E _]]]]; discriminate].
    + intros e. split.
      * intros E. injection E as ->. now left.
      * intros [E | [[[c' E] _] | [[c' E] _]]]; try discriminate. congruence.
Qed.

(** ** Session file *)

Section SessionLogFacts.
Context {T : Type} `{Timestamp T}.
Variable isoformat : T -> result string.

Lemma prefix_of_refl {A : Type} (l : list A) : prefix_of l l.
Proof. exists []. now rewrite app_nil_r. Qed.

Lemma prefix_of_trans {A : Type} (a b c : list A) :
  prefix_of a b -> prefix_of b c -> prefix_of a c.
Proof.
  intros [r1 ->] [r2 ->]. exists (r1 ++ r2). now rewrite app_assoc.
Qed.

(** What one append adds to the session file. *)
Lemma lines_write_row (io : CsvIO) (file : option (list csv_line)) (row : Reading T) :
  exists added,
    lines (fst (write_row isoformat io
                  (match file with Some _ => true | None => false end) file row))
    = lines file ++ added /\
    (added = [] \/
     (file = None /\ added = [Header csv_fieldnames]) \/
     (exists dt, isoformat (ts row) = Ok dt /\
                 snd (write_row isoformat io
                        (match file with Some _ => true | None => false end)
                        file row) = Ok tt /\
                 (added = [line_of dt row] /\ file <> None \/
                  added = [Header csv_fieldnames; line_of dt row] /\ file = None))).
Proof.
  unfold write_row.
  destruct (open_error io) as [e |].
  { exists []. rewrite app_nil_r. auto. }
  destruct file as [ls |]; simpl.
  - destruct (isoformat (ts row)) as [dt | e].
    + destruct (row_error io) as [e |]; simpl.
      * exists []. rewrite app_nil_r. auto.
      * exists [line_of dt row]. split; [reflexivity |].
        right. right. exists dt. split; [reflexivity |]. split; [reflexivity |].
        left. split; [reflexivity | discriminate].
    + exists []. rewrite app_nil_r. auto.
  - destruct (header_error io) as [e |]; simpl.
    { exists []. auto. }
    destruct (isoformat (ts row)) as [dt | e].
    + destruct (row_error io) as [e |]; simpl.
      * exists [Header csv_fieldnames]. auto.
      * exists [Header csv_fieldnames; line_of dt row]. split; [reflexivity |].
        right. right. exists dt. split; [reflexivity |]. split; [reflexivity |].
        right. split; reflexivity.
    + exists [Header csv_fieldnames]. auto.
Qed.

Lemma log_file_append_to_csv (io : CsvIO) (row : Reading T) (w : World T) :
  log_file (append_to_csv isoformat io row w)
  = fst (write_row isoformat io
           (match log_file w with Some _ => true | None => false end)
           (log_file w) row).
Proof.
  unfold append_to_csv.
  destruct (write_row isoformat io _ (log_file w) row) as [file [u | e]];
    reflexivity.
Qed.

Lemma log_file_sensor_loop_body (tick : Tick T) (w : World T) :
  log_file (sensor_loop_body isoformat tick w)
  = match read_sensors_once (sensors tick) with
    | Ok row =>
        fst (write_row isoformat (csv_io tick)
               (match log_file w with Some _ => true | None => false end)
               (log_file w) row)
    | Raise _ => log_file w
    end.
Proof.
  unfold sensor_loop_body.
  destruct (read_sensors_once (sensors tick)) as [row | e]; simpl.
  - rewrite log_file_append_to_csv. reflexivity.
  - reflexivity.
Qed.

Lemma header_first_body (tick : Tick T) (w : World T) :
  header_first (lines (log_file w)) ->
  header_first (lines (log_file (sensor_loop_body isoformat tick w))).
Proof.
  intros Hw. rewrite log_file_sensor_loop_body.
  destruct (read_sensors_once (sensors tick)) as [row | e]; [| exact Hw].
  destruct (lines_write_row (csv_io tick) (log_file w) row) as [added [-> Hadd]].
  unfold header_first in *.
  destruct Hadd as [-> | [[Hnone ->] | [dt [_ [_ [[-> Hsome] | [-> Hnone]]]]]]].
  - now rewrite app_nil_r.
  - rewrite Hnone. simpl. constructor.
  - destruct (log_file w) as [ls |]; [| congruence]. simpl in *.
    destruct ls as [| l ls]; simpl in *.
    + constructor.
    + apply Forall_app. split; [exact Hw | repeat constructor].
  - rewrite Hnone. simpl. repeat constructor.
Qed.

Lemma session_file_grows (ticks : list (Tick T)) (w : World T) :
  prefix_of (lines (log_file w)) (lines (log_file (sensor_loop isoformat ticks w))) /\
  (header_first (lines (log_file w)) ->
   header_first (lines (log_file (sensor_loop isoformat ticks w)))).
Proof.
  revert w. induction ticks as [| tick ticks IH]; intros w.
  - split; [apply prefix_of_refl | auto].
  - change (sensor_loop isoformat (tick :: ticks) w)
      with (sensor_loop isoformat ticks (sensor_loop_body isoformat tick w)).
    destruct (IH (sensor_loop_body isoformat tick w)) as [IHp IHh].
    split.
    + refine (prefix_of_trans _ _ _ _ IHp).
      rewrite log_file_sensor_loop_body.
      destruct (read_sensors_once (sensors tick)) as [row | e];
        [| apply prefix_of_refl].
      destruct (lines_write_row (csv_io tick) (log_file w) row) as [added [-> _]].
      now exists added.
    + intros Hw. apply IHh. now apply header_first_body.
Qed.

(** X7: whatever the sensors and the file system do, the poll loop only adds
    to the session file: the lines it had are the first lines it has
    afterwards, in the same order; and in a file that the process started
    a header is on the first line or nowhere. *)
Theorem session_file_append_only (ticks : list (Tick T)) (w : World T) :
  prefix_of (lines (log_file w)) (lines (log_file (sensor_loop isoformat ticks w))) /\
  header_first (lines (log_file (sensor_loop isoformat ticks initial_world))).
Proof.
  split.
  - apply session_file_grows.
  - apply session_file_grows. constructor.
Qed.

Variable iso : T -> string.

Lemma write_row_healthy (io : CsvIO) (file : option (list csv_line)) (row : Reading T) :
  healthy io -> isoformat (ts row) = Ok (iso (ts row)) ->
  fst (write_row isoformat io
         (match file with Some _ => true | None => false end) file row)
  = Some (match file with
          | Some ls => ls ++ [line_of (iso (ts row)) row]
          | None => [Header csv_fieldnames; line_of (iso (ts row)) row]
          end).
Proof.
  intros [Ho [Hh Hr]] Hiso. unfold write_row. rewrite Ho, Hiso, Hr.
  destruct file; [reflexivity |]. rewrite Hh. reflexivity.
Qed.

(** X8: when the file system raises nothing and every timestamp can be
    formatted, the session file after any number of iterations is the
    header followed by one line for each successful reading, in the order
    of the readings; there is no file before the first reading. *)
Theorem session_file_of_healthy_run (ticks : list (Tick T)) :
  (forall tick, In tick ticks -> healthy (csv_io tick)) ->
  (forall row, In row (readings_of ticks) -> isoformat (ts row) = Ok (iso (ts row))) ->
  log_file (sensor_loop isoformat ticks initial_world)
  = match readings_of ticks with
    | [] => None
    | rows =>
        Some (Header csv_fieldnames :: map (fun r => line_of (iso (ts r)) r) rows)
    end.
Proof.
  intros Hio Hiso.
  assert (Hgen : forall (w : World T),
             log_file (sensor_loop isoformat ticks w)
             = match readings_of ticks with
               | [] => log_file w
               | rows =>
                   Some (match log_file w with
                         | Some ls => ls
                         | None => [Header csv_fieldnames]
                         end ++ map (fun r => line_of (iso (ts r)) r) rows)
               end).
  { induction ticks as [| tick ticks IH]; intros w; [reflexivity |].
    change (sensor_loop isoformat (tick :: ticks) w)
      with (sensor_loop isoformat ticks (sensor_loop_body isoformat tick w)).
    rewrite IH.
    2: { intros t Ht. apply Hio. now right. }
    2: { intros r Hr. apply Hiso. simpl. apply in_or_app. now right. }
    rewrite log_file_sensor_loop_body. simpl.
    pose proof (Hio tick (or_introl eq_refl)) as Hh.
    assert (Hrow : forall row, read_sensors_once (sensors tick) = Ok row ->
                               isoformat (ts row) = Ok (iso (ts row))).
    { intros row E. apply Hiso. simpl. rewrite E. now left. }
    destruct (read_sensors_once (sensors tick)) as [row | e]; simpl.
    - rewrite (write_row_healthy _ _ _ Hh (Hrow row eq_refl)).
      destruct (readings_of ticks) as [| r rs].
      + destruct (log_file w); reflexivity.
      + destruct (log_file w); simpl; rewrite <- ?app_assoc; reflexivity.
    - reflexivity. }
  rewrite Hgen. simpl. destruct (readings_of ticks); reflexivity.
Qed.

End SessionLogFacts.

(** Two good reads around a failed one. *)
Lemma session_file_of_healthy_run_witness :
  log_file
    (sensor_loop (fun _ => Ok "2023-11-14T22:13:20")
       [mkTick (sensors_at 1700000000%float) (mkCsvIO None None None);
        mkTick (mkSensors (Raise "Remote I/O error") (Ok 45.0%float) (Ok [])
                  1700000005%float)
          (mkCsvIO None None None);
        mkTick (sensors_at 1700000010%float) (mkCsvIO None None None)]
       initial_world)
  = Some [Header csv_fieldnames;
          line_of "2023-11-14T22:13:20" (reading_at 1700000000%float);
          line_of "2023-11-14T22:13:20" (reading_at 1700000010%float)].
Proof.
  apply (@session_file_of_healthy_run float float_timestamp
           (fun _ => Ok "2023-11-14T22:13:20") (fun _ => "2023-11-14T22:13:20")).
  - intros tick [<- | [<- | [<- | []]]]; repeat split.
  - intros row _. reflexivity.
Defined.

(** ** The window as a tail, and the two routes *)

Section WindowTail.
Context {T : Type} `{Timestamp T}.

Lemma nondecreasing_app_r (pre l : list (Reading T)) :
  nondecreasing (pre ++ l) -> nondecreasing l.
Proof.
  induction pre as [| a pre IH]; intros Hnd; [exact Hnd |].
  apply IH. exact (proj2 Hnd).
Qed.

Lemma suffix_of_trans {A : Type} (a b c : list A) :
  suffix_of a b -> suffix_of b c -> suffix_of a c.
Proof.
  intros [p1 ->] [p2 ->]. exists (p2 ++ p1). now rewrite app_assoc.
Qed.

Lemma suffix_of_snoc {A : Type} (s l : list A) (x : A) :
  suffix_of s l -> suffix_of (s ++ [x]) (l ++ [x]).
Proof. intros [p ->]. exists p. now rewrite app_assoc. Qed.

Hypothesis ge_trans :
  forall a b c : T, ts_ge a b = true -> ts_ge b c = true -> ts_ge a c = true.

(** X9: when the timestamps of the recorded readings never go back, the
    window after the calls is a tail of the recorded sequence: the newest
    readings, none missing in between. *)
Theorem window_is_tail_of_records (rows : list (Reading T)) :
  nondecreasing rows ->
  suffix_of (snapshot_history (record_all empty_store rows)) rows.
Proof.
  unfold snapshot_history.
  induction rows as [| x rows IH] using rev_ind; intros Hnd.
  - exists []. reflexivity.
  - rewrite record_all_snoc, history_record.
    assert (Hrows : nondecreasing rows).
    { clear IH. induction rows as [| a l IHl]; [exact I |].
      destruct Hnd as [Hhd Htl]. split; [| now apply IHl].
      destruct l; [exact I | exact Hhd]. }
    pose proof (suffix_of_snoc _ _ x (IH Hrows)) as Hsuf.
    refine (suffix_of_trans _ _ _ _ Hsuf).
    destruct Hsuf as [pre Hpre].
    assert (Hnd' : nondecreasing (history (record_all empty_store rows) ++ [x])).
    { apply (nondecreasing_app_r pre). now rewrite <- Hpre. }
    destruct (filter_cutoff_suffix ge_trans (ts_minus (ts x) HISTORY_SECONDS) _ Hnd')
      as [pre' [Hl _]].
    exists pre'. exact Hl.
Qed.

End WindowTail.

Section Endpoints.
Context {T : Type} `{Timestamp T}.
Variable isoformat : T -> result string.

(** X10: on the same state of the store the two routes agree: when every
    recorded reading is not before its own cutoff, the reading of
    [/api/data] is the last point of [/api/history], and when [/api/data]
    has no data [/api/history] has no points. *)
Theorem endpoints_agree (ticks : list (Tick T)) (sysinfo : SystemInfo) :
  (forall row, In row (readings_of ticks) ->
               ts_ge (ts row) (ts_minus (ts row) HISTORY_SECONDS) = true) ->
  match api_data (store (sensor_loop isoformat ticks initial_world)) sysinfo,
        api_history (store (sensor_loop isoformat ticks initial_world)) with
  | (JData _ row _, _), (JPoints _ pts, _) => last_opt pts = Some row
  | (JError _ _, _), (JPoints _ pts, _) => pts = []
  | _, _ => False
  end.
Proof.
  intros Hself. rewrite store_sensor_loop, api_data_of_store.
  unfold api_history, snapshot_history.
  change (store initial_world) with (@empty_store T).
  destruct (readings_of ticks) as [| row rows _] using rev_ind.
  - reflexivity.
  - rewrite record_all_snoc. rewrite last_row_record, history_record, filter_app.
    simpl. unfold in_window at 2.
    rewrite (Hself row) by (apply in_or_app; right; now left).
    apply last_opt_snoc.
Qed.

End Endpoints.

(** Five readings of a float clock, the last two at the same time. *)
Lemma window_is_tail_of_records_witness :
  suffix_of
    (snapshot_history
       (record_all empty_store (map reading_at [0; 300; 600; 1200; 1200]%float)))
    (map reading_at [0; 300; 600; 1200; 1200]%float).
Proof.
  apply (@window_is_tail_of_records float float_timestamp
           FloatOrder.float_ge_trans).
  vm_compute. repeat split.
Defined.

(** Two good reads. *)
Lemma endpoints_agree_witness :
  match api_data
          (store
             (sensor_loop (fun _ => Ok "2023-11-14T22:13:20")
                [mkTick (sensors_at 1700000000%float) (mkCsvIO None None None);
                 mkTick (sensors_at 1700000005%float) (mkCsvIO None None None)]
                initial_world))
          (mkSystemInfo None "N/A" "N/A" None),
        api_history
          (store
             (sensor_loop (fun _ => Ok "2023-11-14T22:13:20")
                [mkTick (sensors_at 1700000000%float) (mkCsvIO None None None);
                 mkTick (sensors_at 1700000005%float) (mkCsvIO None None None)]
                initial_world)) with
  | (JData _ row _, _), (JPoints _ pts, _) => last_opt pts = Some row
  | (JError _ _, _), (JPoints _ pts, _) => pts = []
  | _, _ => False
  end.
Proof.
  apply (@endpoints_agree float float_timestamp).
  intros row [<- | [<- | []]]; vm_compute; reflexivity.
Defined.

(** ** Threads: no deadlock *)

Section Progress.
Import Threads.
Context {T : Type} `{Timestamp T}.
Variable st : Store T.
Variable row : Reading T.

Lemma nth_error_update_same {A : Type} (l : list A) (i : nat) (a b : A) :
  nth_error l i = Some b -> nth_error (update l i a) i = Some a.
Proof.
  intros Hi. rewrite (nth_error_update l i i a b Hi). now rewrite Nat.eqb_refl.
Qed.

Lemma owner_exists_step (t : thread) (c : config T) :
  owner_exists c -> owner_exists (step row t c).
Proof.
  intros Hown. destruct t as [| i]; simpl.
  - unfold poller_step. destruct (poller c); try exact Hown.
    + destruct (lock c) eqn:El; [exact Hown |]. intros j Hj. discriminate Hj.
    + intros j Hj. discriminate Hj.
  - unfold handler_step.
    destruct (nth_error (handlers c) i) as [[rt pc] |] eqn:Ei; [| exact Hown].
    destruct pc as [| | seen | seen]; try exact Hown.
    + destruct (lock c) eqn:El; [exact Hown |].
      intros j Hj. simpl in *. injection Hj as <-.
      exists rt, HRead. now apply (nth_error_update_same _ _ _ (rt, HEnter)).
    + intros j Hj. simpl in *. destruct (Hown j Hj) as [rt' [pc' Hj']].
      rewrite (nth_error_update _ _ j _ _ Ei).
      destruct (Nat.eqb j i); eauto.
    + intros j Hj. discriminate Hj.
Qed.

Lemma owner_exists_run (sched : list thread) (c : config T) :
  owner_exists c -> owner_exists (run row sched c).
Proof.
  revert c. induction sched as [| t sched IH]; intros c Hc; [exact Hc |].
  simpl. apply IH. now apply owner_exists_step.
Qed.

Lemma progress (c : config T) :
  invariant st row c -> owner_exists c ->
  finished c \/ exists t, step row t c <> c.
Proof.
  intros [Hmem Hpol Hhs] Hown.
  destruct (lock c) as [[| i] |] eqn:El.
  - (* the poll loop holds the lock *)
    right. exists Poller. simpl. unfold poller_step.
    pose proof (proj2 Hpol eq_refl) as Hin.
    destruct (poller c) eqn:Ep; try discriminate Hin;
      intros E; apply (f_equal (@poller T)) in E; simpl in E; congruence.
  - (* a handler holds the lock *)
    right. exists (Handler i). simpl. unfold handler_step.
    destruct (Hown i El) as [rt [pc Hi]]. rewrite Hi.
    pose proof (proj2 (proj1 (Hhs i rt pc Hi)) eq_refl) as Hin.
    destruct pc as [| | seen | seen]; try discriminate Hin.
    + intros E. apply (f_equal (fun c => nth_error (handlers c) i)) in E.
      simpl in E. rewrite (nth_error_update_same _ _ _ _ Hi), Hi in E.
      discriminate.
    + intros E. apply (f_equal (@lock T)) in E. simpl in E. congruence.
  - (* the lock is free *)
    assert (Hnp : poller_in (poller c) = false).
    { destruct (poller_in (poller c)); [| reflexivity].
      pose proof (proj1 Hpol eq_refl). discriminate. }
    destruct (poller c) eqn:Ep; try discriminate Hnp.
    + right. exists Poller. simpl. unfold poller_step. rewrite Ep, El.
      intros E. apply (f_equal (@lock T)) in E. simpl in E. congruence.
    + destruct (forallb is_done (handlers c)) eqn:Hall.
      * left. split; [exact Ep | exact Hall].
      * right.
        assert (Hex : exists h, In h (handlers c) /\ is_done h = false).
        { clear -Hall. induction (handlers c) as [| h l IH]; [discriminate |].
          simpl in Hall. destruct (is_done h) eqn:Eh.
          - destruct (IH Hall) as [h' [Hin Hh']]. exists h'. split; [now right | exact Hh'].
          - exists h. split; [now left | exact Eh]. }
        destruct Hex as [[rt pc] [Hin Hnd]].
        apply In_nth_error in Hin. destruct Hin as [i Hi].
        exists (Handler i). simpl. unfold handler_step. rewrite Hi.
        destruct (Hhs i rt pc Hi) as [Hlock _].
        destruct pc as [| | seen | seen]; try discriminate Hnd.
        -- rewrite El. intros E. apply (f_equal (@lock T)) in E.
           simpl in E. congruence.
        -- pose proof (proj1 Hlock eq_refl). congruence.
        -- pose proof (proj1 Hlock eq_refl). congruence.
Qed.

(** X11: the lock never leaves the threads stuck: under every schedule,
    either the record call and all the handlers have left their blocks, or
    some thread can take a step. *)
Theorem no_deadlock (routes : list route) (sched : list thread) :
  finished (run row sched (start st routes)) \/
  exists t, step row t (run row sched (start st routes))
            <> run row sched (start st routes).
Proof.
  apply progress.
  - apply invariant_run, invariant_start.
  - apply owner_exists_run. intros i Hi. discriminate Hi.
Qed.

End Progress.

(** ** Wireless status *)

Lemma append_assoc (a b c : string) : ((a ++ b) ++ c = a ++ (b ++ c))%string.
Proof. induction a as [| x a IH]; simpl; [reflexivity | now rewrite IH]. Qed.

Lemma append_nil_r (a : string) : (a ++ "")%string = a.
Proof. induction a as [| x a IH]; simpl; [reflexivity | now rewrite IH]. Qed.

Lemma splitlines_aux_calm (l rest cur : string) :
  all_chars calm l = true ->
  splitlines_aux (l ++ String line_feed rest) cur
  = (cur ++ l)%string :: splitlines_aux rest "".
Proof.
  revert cur. induction l as [| c l IH]; intros cur Hl.
  - rewrite append_nil_r. simpl. destruct rest; reflexivity.
  - simpl in Hl. apply andb_prop in Hl. destruct Hl as [Hc Hl].
    unfold calm in Hc. apply negb_true_iff in Hc.
    apply orb_false_elim in Hc. destruct Hc as [Hb Hc].
    apply orb_false_elim in Hc. destruct Hc as [H194 H226].
    change ((String c l ++ String line_feed rest)%string)
      with (String c (l ++ String line_feed rest)%string).
    cbn [splitlines_aux]. rewrite Hb, H194, H226. cbn [andb].
    replace (cur ++ String c l)%string with ((cur ++ String c "") ++ l)%string
      by (rewrite append_assoc; reflexivity).
    rewrite <- (IH (cur ++ String c "")%string Hl).
    destruct (l ++ String line_feed rest)%string as [| c2 [| c3 s3]];
      reflexivity.
Qed.

Section WifiFacts.
Variable py_int : string -> result Z.

Lemma scan_lines_skip (before ls : list string) :
  Forall (fun l => contains marker l = false) before ->
  scan_lines py_int (before ++ ls) = scan_lines py_int ls.
Proof.
  induction 1 as [| l before Hl _ IH]; [reflexivity |].
  simpl. rewrite Hl. exact IH.
Qed.

Lemma splitlines_join (before : list string) (rest : string) :
  Forall (fun l => all_chars calm l = true) before ->
  splitlines (join_lines before ++ rest) = before ++ splitlines rest.
Proof.
  unfold splitlines. induction 1 as [| l before Hl _ IH]; [reflexivity |].
  simpl. rewrite append_assoc. simpl.
  rewrite (splitlines_aux_calm l _ "" Hl). simpl. now rewrite IH.
Qed.

Lemma prefix_cons (a b : ascii) (s1 s2 : string) :
  String.prefix (String a s1) (String b s2)
  = if Ascii.eqb a b then String.prefix s1 s2 else false.
Proof.
  simpl. destruct (ascii_dec a b) as [-> | Hne].
  - now rewrite Ascii.eqb_refl.
  - destruct (Ascii.eqb_spec a b); [contradiction | reflexivity].
Qed.

Lemma prefix_nil_r (a : ascii) (s : string) : String.prefix (String a s) "" = false.
Proof. reflexivity. Qed.

Lemma prefix_nil_l (s : string) : String.prefix "" s = true.
Proof. now destruct s. Qed.

Lemma prefix_append (a s : string) : String.prefix a (a ++ s) = true.
Proof.
  induction a as [| c a IH]; [apply prefix_nil_l |].
  change (String c a ++ s)%string with (String c (a ++ s)%string).
  now rewrite prefix_cons, Ascii.eqb_refl.
Qed.

Lemma drop_append (a s : string) : drop (String.length a) (a ++ s) = s.
Proof. induction a as [| c a IH]; simpl; [reflexivity | exact IH]. Qed.

(** An occurrence of the marker that starts in [q] does not run over into
    a marker that follows [q]. *)
Lemma marker_no_overlap (q x : string) :
  q <> "" ->
  String.prefix marker (q ++ marker ++ x) = true ->
  String.prefix marker q = true.
Proof.
  unfold marker. intros Hq.
  destruct q as [| c q]; [congruence |]. clear Hq.
  repeat (change (String c q ++ ?y)%string with (String c (q ++ y)%string);
          rewrite !prefix_cons;
          match goal with
          | |- context [Ascii.eqb ?a c] =>
              destruct (Ascii.eqb_spec a c) as [E |]; [subst c | discriminate]
          end;
          destruct q as [| c q]; [intros Hp; vm_compute in Hp; discriminate |]).
  change (String c q ++ ?y)%string with (String c (q ++ y)%string).
  rewrite !prefix_cons.
  match goal with
  | |- context [Ascii.eqb ?a c] =>
      destruct (Ascii.eqb_spec a c) as [E |]; [subst c | discriminate]
  end.
  intros _. apply prefix_nil_l.
Qed.

Lemma contains_cons (sub : string) (c : ascii) (s : string) :
  contains sub (String c s) = false ->
  String.prefix sub (String c s) = false /\ contains sub s = false.
Proof.
  simpl. destruct sub as [| a sub]; [discriminate |].
  destruct (ascii_dec a c); [destruct (String.prefix sub s) |]; auto; discriminate.
Qed.

Lemma after_first_marker (pre x : string) :
  contains marker pre = false ->
  after_first marker (pre ++ marker ++ x) = Some x.
Proof.
  induction pre as [| c pre IH]; intros Hpre.
  - change ("" ++ marker ++ x)%string with (marker ++ x)%string.
    unfold after_first. destruct (marker ++ x)%string eqn:E; [discriminate |].
    rewrite <- E, prefix_append, drop_append. reflexivity.
  - apply contains_cons in Hpre. destruct Hpre as [Hp Hc].
    assert (Hno : String.prefix marker (String c pre ++ marker ++ x) = false).
    { destruct (String.prefix marker (String c pre ++ marker ++ x)) eqn:E;
        [| reflexivity].
      apply marker_no_overlap in E; [congruence | discriminate]. }
    change (String c pre ++ marker ++ x)%string
      with (String c (pre ++ marker ++ x)%string) in *.
    cbn [after_first]. rewrite Hno. now apply IH.
Qed.

Lemma contains_marker_here (pre x : string) :
  contains marker (pre ++ marker ++ x) = true.
Proof.
  induction pre as [| c pre IH].
  - change ("" ++ marker ++ x)%string with (marker ++ x)%string.
    unfold contains. destruct (marker ++ x)%string eqn:E; [discriminate |].
    rewrite <- E, prefix_append. reflexivity.
  - change (String c pre ++ marker ++ x)%string
      with (String c (pre ++ marker ++ x)%string).
    cbn [contains]. rewrite IH. now destruct (String.prefix _ _).
Qed.

(** A value made of token characters ends at the space that follows it. *)
Lemma value_before_space (s rest : string) :
  all_chars token_char s = true ->
  before_first " " (before_first marker (s ++ String " " rest)) = s.
Proof.
  induction s as [| c s IH]; intros Hs.
  - change ("" ++ String " " rest)%string with (String " " rest).
    unfold marker. cbn [before_first]. rewrite prefix_cons.
    change (Ascii.eqb "S" " ") with false. cbn iota.
    cbn [before_first]. rewrite prefix_cons.
    change (Ascii.eqb " " " ") with true. cbn iota. now rewrite prefix_nil_l.
  - simpl in Hs. apply andb_prop in Hs. destruct Hs as [Hc Hs].
    unfold token_char in Hc. apply andb_prop in Hc. destruct Hc as [_ Hc].
    apply negb_true_iff, orb_false_elim in Hc. destruct Hc as [Hsp HS].
    change (String c s ++ String " " rest)%string
      with (String c (s ++ String " " rest)%string).
    unfold marker. cbn [before_first]. rewrite prefix_cons.
    rewrite Ascii.eqb_sym, HS. cbn [before_first]. rewrite prefix_cons.
    rewrite Ascii.eqb_sym, Hsp. f_equal. exact (IH Hs).
Qed.

Lemma all_chars_app (p : ascii -> bool) (a b : string) :
  all_chars p (a ++ b) = andb (all_chars p a) (all_chars p b).
Proof.
  induction a as [| c a IH]; simpl; [reflexivity |].
  now rewrite IH, andb_assoc.
Qed.

Lemma all_chars_weaken (p q : ascii -> bool) (s : string) :
  (forall c, p c = true -> q c = true) ->
  all_chars p s = true -> all_chars q s = true.
Proof.
  intros Hpq. induction s as [| c s IH]; simpl; [reflexivity |].
  intros Hs. apply andb_prop in Hs. destruct Hs as [Hc Hs].
  now rewrite (Hpq c Hc), IH.
Qed.

Lemma token_char_calm (c : ascii) : token_char c = true -> calm c = true.
Proof. unfold token_char. intros Hc. now apply andb_prop in Hc. Qed.

(** X12: the first line that carries the marker decides: when the lines
    before it are free of the marker, the value is the text between the
    marker and the next space, and the result is what [int] makes of it,
    nothing when [int] rejects it, whatever the later lines hold. *)
Theorem get_wifi_rssi_first_signal_line
    (before : list string) (pre s rest tail : string) :
  Forall (fun l => all_chars calm l = true) before ->
  Forall (fun l => contains marker l = false) before ->
  all_chars calm pre = true ->
  contains marker pre = false ->
  all_chars token_char s = true ->
  all_chars calm rest = true ->
  get_wifi_rssi py_int
    (Ok (join_lines before ++ pre ++ marker ++ s ++ String " " rest
           ++ String line_feed tail)%string)
  = match py_int s with
    | Ok n => Some n
    | Raise _ => None
    end.
Proof.
  intros Hcalm Hnone Hpre Hmark Hs Hrest.
  unfold get_wifi_rssi. cbn [bind].
  set (line := (pre ++ marker ++ s ++ String " " rest)%string).
  replace (join_lines before ++ pre ++ marker ++ s ++ String " " rest
             ++ String line_feed tail)%string
    with (join_lines before ++ (line ++ String line_feed tail))%string.
  2: { unfold line. rewrite !append_assoc. reflexivity. }
  rewrite (splitlines_join _ _ Hcalm). unfold splitlines at 1.
  rewrite splitlines_aux_calm.
  2: { unfold line. rewrite !all_chars_app.
       change (all_chars calm (String " " rest))
         with (andb (calm " ") (all_chars calm rest)).
       rewrite Hpre, Hrest, (all_chars_weaken _ _ _ token_char_calm Hs).
       vm_compute. reflexivity. }
  rewrite (scan_lines_skip _ _ Hnone).
  change ("" ++ line)%string with line.
  cbn [scan_lines]. unfold line at 1. rewrite contains_marker_here.
  unfold split_second, line. rewrite (after_first_marker _ _ Hmark).
  cbn [bind]. rewrite (value_before_space _ _ Hs).
  destruct (py_int s); reflexivity.
Qed.


Lemma all_chars_uint (d : Decimal.uint) :
  all_chars token_char (NilEmpty.string_of_uint d) = true.
Proof. induction d; simpl; try rewrite IHd; reflexivity. Qed.

Lemma all_chars_decimal (n : Z) : all_chars token_char (decimal n) = true.
Proof.
  unfold decimal. destruct (Z.to_int n) as [d | d]; simpl;
    destruct d; try reflexivity; apply (all_chars_uint (_ d)).
Qed.

(** X13: a signal level printed in decimal after the marker, on the first
    line that carries the marker, is the level returned, for every integer
    that [int] reads back from its decimal text. *)
Theorem get_wifi_rssi_reads_level
    (n : Z) (before : list string) (pre rest tail : string) :
  py_int (decimal n) = Ok n ->
  Forall (fun l => all_chars calm l = true) before ->
  Forall (fun l => contains marker l = false) before ->
  all_chars calm pre = true ->
  contains marker pre = false ->
  all_chars calm rest = true ->
  get_wifi_rssi py_int
    (Ok (join_lines before ++ pre ++ marker ++ decimal n ++ String " " rest
           ++ String line_feed tail)%string)
  = Some n.
Proof.
  intros Hint Hcalm Hnone Hpre Hmark Hrest.
  rewrite (get_wifi_rssi_first_signal_line before pre (decimal n) rest tail
             Hcalm Hnone Hpre Hmark (all_chars_decimal n) Hrest).
  now rewrite Hint.
Qed.

Lemma prefix_app_r (sub x y : string) :
  String.prefix sub x = true -> String.prefix sub (x ++ y) = true.
Proof.
  revert x. induction sub as [| a sub IH]; intros x Hx; [apply prefix_nil_l |].
  destruct x as [| c x]; [discriminate |].
  change (String c x ++ y)%string with (String c (x ++ y)%string).
  rewrite prefix_cons in *. destruct (Ascii.eqb a c); [now apply IH | discriminate].
Qed.

Lemma contains_app_r (sub x y : string) :
  contains sub x = true -> contains sub (x ++ y) = true.
Proof.
  induction x as [| c x IH]; intros Hx.
  - cbn [contains] in Hx. destruct (String.prefix sub "") eqn:E; [| discriminate].
    apply (prefix_app_r _ _ y) in E. change ("" ++ y)%string with y in *.
    destruct y; cbn [contains]; now rewrite E.
  - change (String c x ++ y)%string with (String c (x ++ y)%string).
    cbn [contains] in *.
    destruct (String.prefix sub (String c x)) eqn:E.
    + apply (prefix_app_r _ _ y) in E.
      change (String c x ++ y)%string with (String c (x ++ y)%string) in E.
      now rewrite E.
    + rewrite (IH Hx). now destruct (String.prefix sub (String c (x ++ y))).
Qed.

Lemma contains_app_l (sub x y : string) :
  contains sub y = true -> contains sub (x ++ y) = true.
Proof.
  intros Hy. induction x as [| c x IH]; [exact Hy |].
  change (String c x ++ y)%string with (String c (x ++ y)%string).
  cbn [contains]. rewrite IH. now destruct (String.prefix sub _).
Qed.

(** Every line is a piece of the text. *)
Lemma splitlines_aux_pieces (n : nat) :
  forall s cur line,
    (String.length s <= n)%nat ->
    In line (splitlines_aux s cur) ->
    exists a b, (cur ++ s)%string = (a ++ line ++ b)%string.
Proof.
  induction n as [| n IH]; intros s cur line Hlen Hin.
  - destruct s; [| simpl in Hlen; lia]. simpl in Hin.
    destruct cur; [destruct Hin |]. destruct Hin as [<- | []].
    exists "", "". now rewrite !append_nil_r.
  - assert (Hcur : forall s', exists a b, (cur ++ s')%string = (a ++ cur ++ b)%string).
    { intros s'. now exists "", s'. }
    assert (Hrest : forall mid s',
               (String.length s' <= n)%nat ->
               In line (splitlines_aux s' "") ->
               exists a b, (cur ++ mid ++ s')%string = (a ++ line ++ b)%string).
    { intros mid s' Hs' Hl. destruct (IH s' "" line Hs' Hl) as [a [b' E]].
      simpl in E. exists (cur ++ mid ++ a)%string, b'.
      rewrite E, !append_assoc. reflexivity. }
    destruct s as [| c s1].
    { simpl in Hin. destruct cur; [destruct Hin |]. destruct Hin as [<- | []].
      exists "", "". now rewrite !append_nil_r. }
    simpl in Hlen. cbn [splitlines_aux] in Hin.
    destruct (is_break c).
    + destruct s1 as [| c2 s2].
      * destruct Hin as [<- | Hin]; [apply Hcur | destruct Hin].
      * destruct (andb (is_byte 13 c) (is_byte 10 c2)).
        -- destruct Hin as [<- | Hin]; [apply Hcur |].
           apply (Hrest (String c (String c2 "")) s2); [simpl in Hlen; lia | exact Hin].
        -- destruct Hin as [<- | Hin]; [apply Hcur |].
           apply (Hrest (String c "") (String c2 s2)); [lia | exact Hin].
    + assert (Hgo : In line (splitlines_aux s1 (cur ++ String c "")) ->
                    exists a b, (cur ++ String c s1)%string = (a ++ line ++ b)%string).
      { intros Hl. destruct (IH s1 _ line ltac:(lia) Hl) as [a [b' E]].
        exists a, b'. rewrite <- E, append_assoc. reflexivity. }
      destruct s1 as [| c2 s2]; [now apply Hgo |].
      destruct (andb (is_byte 194 c) (is_byte 133 c2)).
      * destruct Hin as [<- | Hin]; [apply Hcur |].
        apply (Hrest (String c (String c2 "")) s2); [simpl in Hlen; lia | exact Hin].
      * destruct s2 as [| c3 s3]; [now apply Hgo |].
        destruct (andb (is_byte 226 c)
                    (andb (is_byte 128 c2) (orb (is_byte 168 c3) (is_byte 169 c3)))).
        -- destruct Hin as [<- | Hin]; [apply Hcur |].
           apply (Hrest (String c (String c2 (String c3 ""))) s3);
             [simpl in Hlen; lia | exact Hin].
        -- now apply Hgo.
Qed.

Lemma scan_lines_none (ls : list string) :
  Forall (fun l => contains marker l = false) ls ->
  scan_lines py_int ls = Ok None.
Proof.
  intros Hls. rewrite <- (app_nil_r ls). now rewrite scan_lines_skip.
Qed.

(** X14: a text in which the marker occurs nowhere gives no level, and
    neither does a command that could not be run. *)
Theorem get_wifi_rssi_without_marker :
  (forall out : string,
      contains marker out = false -> get_wifi_rssi py_int (Ok out) = None) /\
  (forall e : string, get_wifi_rssi py_int (Raise e) = None).
Proof.
  split; [| reflexivity].
  intros out Hout. unfold get_wifi_rssi. cbn [bind].
  rewrite scan_lines_none; [reflexivity |].
  apply Forall_forall. intros line Hin.
  destruct (splitlines_aux_pieces _ out "" line (le_n _) Hin) as [a [b' E]].
  simpl in E. destruct (contains marker line) eqn:El; [| reflexivity].
  rewrite E in Hout.
  rewrite (contains_app_l _ a _ (contains_app_r _ _ b' El)) in Hout.
  discriminate.
Qed.

End WifiFacts.

(** The output of the command on a board with one radio. *)
Lemma get_wifi_rssi_first_signal_line_witness :
  get_wifi_rssi ascii_int
    (Ok (join_lines ["wlan0     IEEE 802.11  ESSID:home"]
           ++ "          Link Quality=48/70  " ++ marker ++ "-62"
           ++ String " " "dBm  "
           ++ String line_feed "          Rx invalid nwid:0")%string)
  = match ascii_int "-62" with
    | Ok n => Some n
    | Raise _ => None
    end.
Proof.
  apply (get_wifi_rssi_first_signal_line ascii_int
           ["wlan0     IEEE 802.11  ESSID:home"]
           "          Link Quality=48/70  " "-62" "dBm  "
           "          Rx invalid nwid:0");
    repeat constructor.
Defined.

Lemma get_wifi_rssi_reads_level_witness :
  get_wifi_rssi ascii_int
    (Ok (join_lines ["wlan0     IEEE 802.11  ESSID:home"]
           ++ "          Link Quality=48/70  " ++ marker ++ decimal (-62)
           ++ String " " "dBm  "
           ++ String line_feed "          Rx invalid nwid:0")%string)
  = Some (-62).
Proof.
  apply (get_wifi_rssi_reads_level ascii_int (-62)
           ["wlan0     IEEE 802.11  ESSID:home"]
           "          Link Quality=48/70  " "dBm  "
           "          Rx invalid nwid:0");
    repeat constructor.
Defined.

(** A value that is not a number, then a line that would have been one. *)
Example get_wifi_rssi_malformed_first :
  get_wifi_rssi ascii_int
    (Ok ("Signal level=n/a dBm" ++ String line_feed "Signal level=-62 dBm")%string)
  = None.
Proof. vm_compute. reflexivity. Qed.

(** A host without a radio. *)
Lemma get_wifi_rssi_without_marker_witness :
  contains marker "lo        no wireless extensions." = false /\
  get_wifi_rssi ascii_int (Ok "lo        no wireless extensions.") = None.
Proof.
  split; [reflexivity |].
  apply (proj1 (get_wifi_rssi_without_marker ascii_int)). reflexivity.
Defined.
